(** * convert_task.py: section extraction and action recognition

    A shallow embedding of [src/convert_task.py].  Python strings are
    sequences of code points; here a string is a list of [ascii], each
    character standing for the code point of the same number (0..255).
    On that range the Unicode-aware notions the program uses
    ([str.strip], [str.splitlines], the regex classes [\s] and [\d])
    are the finite sets written out below.

    The regular expressions are kept as syntax trees and run by a small
    backtracking matcher with the priorities of Python's [re] module:
    alternatives left to right, greedy repetitions longest first, lazy
    ones shortest first, [re.search] leftmost start first. *)

From Stdlib Require Import List Ascii String ZArith Bool Lia Arith.
From Stdlib Require Import Floats.SpecFloat.
Import ListNotations.

Local Open Scope string_scope.
Local Open Scope list_scope.

(** ** Strings *)

Definition str : Type := list ascii.

Definition of_string (s : string) : str := list_ascii_of_string s.
Coercion of_string : string >-> str.

(** [ord(a)] *)
Definition ord (a : ascii) : nat := nat_of_ascii a.

Definition str_eqb (s t : str) : bool :=
  if list_eq_dec ascii_dec s t then true else false.

(** [s.startswith(p)], returning the rest of [s] after [p]. *)
Fixpoint strip_prefix (p s : str) : option str :=
  match p with
  | [] => Some s
  | a :: p' =>
      match s with
      | [] => None
      | b :: s' => if Ascii.eqb a b then strip_prefix p' s' else None
      end
  end.

(** [p in s] for strings. *)
Fixpoint contains (p s : str) : bool :=
  match strip_prefix p s with
  | Some _ => true
  | None => match s with
            | [] => false
            | _ :: s' => contains p s'
            end
  end.

(** [str.isspace] on one character, which is also the regex class [\s]
    of a [str] pattern: TAB..CR, FS..US, space, NEL and NBSP. *)
Definition is_space (a : ascii) : bool :=
  let n := ord a in
  ((9 <=? n) && (n <=? 13) || (28 <=? n) && (n <=? 32)
   || (n =? 133) || (n =? 160))%nat.

(** The regex class [\d]: the decimal digits. *)
Definition is_digit (a : ascii) : bool :=
  let n := ord a in ((48 <=? n) && (n <=? 57))%nat.

Fixpoint lstrip (s : str) : str :=
  match s with
  | a :: s' => if is_space a then lstrip s' else s
  | [] => []
  end.

Definition rstrip (s : str) : str := rev (lstrip (rev s)).

(** [s.strip()] *)
Definition strip (s : str) : str := rstrip (lstrip s).

(** The line boundaries of [str.splitlines]: LF, VT, FF, CR, FS, GS,
    RS and NEL; CR LF counts as one boundary. *)
Definition is_linebreak (a : ascii) : bool :=
  let n := ord a in
  ((10 <=? n) && (n <=? 13) || (28 <=? n) && (n <=? 30) || (n =? 133))%nat.

(** [splitlines_from cur s]: [cur] is the current line, reversed. *)
Fixpoint splitlines_from (cur : str) (s : str) : list str :=
  match s with
  | [] => match cur with [] => [] | _ => [rev cur] end
  | a :: s' =>
      if is_linebreak a then
        match s' with
        | b :: s'' =>
            if ((ord a =? 13) && (ord b =? 10))%nat
            then rev cur :: splitlines_from [] s''
            else rev cur :: splitlines_from [] s'
        | [] => [rev cur]
        end
      else splitlines_from (a :: cur) s'
  end.

(** [s.splitlines()] *)
Definition splitlines (s : str) : list str := splitlines_from [] s.

(** [s.split(",")[0]]: the text before the first comma. *)
Fixpoint before_comma (s : str) : str :=
  match s with
  | [] => []
  | a :: s' => if Ascii.eqb a "," then [] else a :: before_comma s'
  end.

(** ** Regular expressions *)

Inductive regex : Type :=
| Eps
| Lit (l : str)                           (* literal text *)
| Cls (c : ascii -> bool)                 (* one character of a class *)
| Seq (r1 r2 : regex)
| Alt (r1 r2 : regex)                     (* r1|r2, r1 first *)
| Star (greedy : bool) (c : ascii -> bool) (* c* and c*? *)
| Grp (n : nat) (r : regex).              (* capturing group n *)

(** [c+], [c+?] and [r?] *)
Definition Plus (greedy : bool) (c : ascii -> bool) : regex :=
  Seq (Cls c) (Star greedy c).
Definition Opt (r : regex) : regex := Alt r Eps.

Definition caps : Type := list (nat * str).

Section Repeat.
Variable A : Type.
Variable c : ascii -> bool.
Variable k : str -> option A.

(** longest run first, then give characters back one at a time *)
Fixpoint rep_greedy (s : str) : option A :=
  match s with
  | a :: s' =>
      if c a then
        match rep_greedy s' with
        | Some r => Some r
        | None => k s
        end
      else k s
  | [] => k []
  end.

(** empty run first, then take characters one at a time *)
Fixpoint rep_lazy (s : str) : option A :=
  match k s with
  | Some r => Some r
  | None =>
      match s with
      | a :: s' => if c a then rep_lazy s' else None
      | [] => None
      end
  end.
End Repeat.
Arguments rep_greedy {A} c k s.
Arguments rep_lazy {A} c k s.

(** The text consumed between [s] and its suffix [s']. *)
Definition consumed (s s' : str) : str :=
  firstn (List.length s - List.length s') s.

(** Backtracking matcher in continuation-passing style: [k] is what
    remains to be matched after [r]. *)
Fixpoint matchk (r : regex) (s : str) (g : caps)
         (k : str -> caps -> option caps) {struct r} : option caps :=
  match r with
  | Eps => k s g
  | Lit l =>
      match strip_prefix l s with
      | Some s' => k s' g
      | None => None
      end
  | Cls c =>
      match s with
      | a :: s' => if c a then k s' g else None
      | [] => None
      end
  | Seq r1 r2 => matchk r1 s g (fun s' g' => matchk r2 s' g' k)
  | Alt r1 r2 =>
      match matchk r1 s g k with
      | Some m => Some m
      | None => matchk r2 s g k
      end
  | Star true c => rep_greedy c (fun s' => k s' g) s
  | Star false c => rep_lazy c (fun s' => k s' g) s
  | Grp n r => matchk r s g (fun s' g' => k s' ((n, consumed s s') :: g'))
  end.

(** [re.match(r, s)]: anchored at the start, free at the end. *)
Definition re_match (r : regex) (s : str) : option caps :=
  matchk r s [] (fun _ g => Some g).

(** [re.search(r, s)]: the match at the leftmost possible start. *)
Fixpoint re_search (r : regex) (s : str) : option caps :=
  match re_match r s with
  | Some m => Some m
  | None =>
      match s with
      | [] => None
      | _ :: s' => re_search r s'
      end
  end.

(** [m.group(n)]; every group of the patterns below lies outside any
    optional part, so it is set in every match. *)
Fixpoint group (n : nat) (m : caps) : str :=
  match m with
  | [] => []
  | (i, t) :: m' => if Nat.eqb i n then t else group n m'
  end.

(** Character classes of the patterns. *)
Definition not_hash_tick (a : ascii) : bool :=
  negb (Ascii.eqb a "#" || Ascii.eqb a "`").
Definition not_tick (a : ascii) : bool := negb (Ascii.eqb a "`").
Definition not_rparen (a : ascii) : bool := negb (Ascii.eqb a ")").
(** The double quote, code point 34. *)
Definition dquote : ascii := ascii_of_nat 34.
Definition is_quote (a : ascii) : bool :=
  Ascii.eqb a "'" || Ascii.eqb a dquote.
Definition is_sign (a : ascii) : bool :=
  Ascii.eqb a "-" || Ascii.eqb a "+".
(** [.] without DOTALL *)
Definition dot (a : ascii) : bool := negb (ord a =? 10)%nat.

Definition LF : str := ["010"%char].
Definition ws : regex := Star true is_space.

(** [##\s*Action:\s*\n([^#`]+)] *)
Definition ACTION_RE : regex :=
  Seq (Lit "##") (Seq ws (Seq (Lit "Action:") (Seq ws (Seq (Lit LF)
    (Grp 1 (Plus true not_hash_tick)))))).

(** [##\s*Thought:\s*\n([^#`]+)] *)
Definition THOUGHT_RE : regex :=
  Seq (Lit "##") (Seq ws (Seq (Lit "Thought:") (Seq ws (Seq (Lit LF)
    (Grp 1 (Plus true not_hash_tick)))))).

(** [```(?:python|code)?\s*([^`]+?)```] *)
Definition CODE_RE : regex :=
  Seq (Lit "```") (Seq (Opt (Alt (Lit "python") (Lit "code")))
    (Seq ws (Seq (Grp 1 (Plus false not_tick)) (Lit "```")))).

Definition extract_sections (resp : str) : str * str * str :=
  let thought := re_search THOUGHT_RE resp in
  let action := re_search ACTION_RE resp in
  let code := re_search CODE_RE resp in
  (match thought with Some m => strip (group 1 m) | None => [] end,
   match action with Some m => strip (group 1 m) | None => [] end,
   match code with Some m => strip (group 1 m) | None => [] end).

(** [[-+]?\d*\.?\d+] as group [n] *)
Definition number (n : nat) : regex :=
  Grp n (Seq (Opt (Cls is_sign)) (Seq (Star true is_digit)
    (Seq (Opt (Lit ".")) (Plus true is_digit)))).

(** [([-+]?\d*\.?\d+)\s*,\s*([-+]?\d*\.?\d+)] *)
Definition COORD_PAIR : regex :=
  Seq (number 1) (Seq ws (Seq (Lit ",") (Seq ws (number 2)))).

(** [x\s*=\s*([-+]?\d*\.?\d+)\s*,\s*y\s*=\s*([-+]?\d*\.?\d+)] *)
Definition NAMED_COORD : regex :=
  Seq (Lit "x") (Seq ws (Seq (Lit "=") (Seq ws (Seq (number 1)
    (Seq ws (Seq (Lit ",") (Seq ws (Seq (Lit "y") (Seq ws (Seq (Lit "=")
      (Seq ws (number 2)))))))))))).


(** ** Exceptions *)

Inductive exn : Type :=
| AttributeError | ValueError | OverflowError.

Inductive result (A : Type) : Type :=
| Ok (a : A)
| Raise (e : exn).
Arguments Ok {A} a.
Arguments Raise {A} e.

Definition bind {A B : Type} (c : result A) (k : A -> result B) : result B :=
  match c with
  | Ok a => k a
  | Raise e => Raise e
  end.

Notation "x <- c ;; k" := (bind c (fun x => k))
  (at level 61, c at next level, right associativity).

(** ** Numbers *)

Local Open Scope Z_scope.

Definition digit_val (a : ascii) : Z := Z.of_nat (ord a) - 48.

(** The default of [sys.get_int_max_str_digits()]. *)
Definition int_max_str_digits : Z := 4300.

(** The digits of an [int] literal in base ten: single underscores
    may separate digits.  [n] counts the digits read. *)
Fixpoint int_digits (acc n : Z) (after_digit : bool) (s : str) : option Z :=
  match s with
  | [] => if after_digit && (n <=? int_max_str_digits) then Some acc else None
  | a :: s' =>
      if is_digit a then int_digits (10 * acc + digit_val a) (n + 1) true s'
      else if Ascii.eqb a "_" then
        if after_digit then int_digits acc n false s' else None
      else None
  end.

(** [int(s)] for a string [s]. *)
Definition py_int (s : str) : result Z :=
  let digits t :=
    match int_digits 0 0 false t with
    | Some n => Ok n
    | None => Raise ValueError
    end in
  match strip s with
  | a :: t =>
      if Ascii.eqb a "-" then n <- digits t ;; Ok (- n)
      else if Ascii.eqb a "+" then digits t
      else digits (a :: t)
  | [] => Raise ValueError
  end.

(** IEEE 754 binary64 *)
Definition prec : Z := 53.
Definition emax : Z := 1024.
Definition float : Type := spec_float.
Definition fmul : float -> float -> float := SFmul prec emax.

(** The float nearest to [n / 10^k], ties to even. *)
Definition float_of_decimal (neg : bool) (n : Z) (k : Z) : float :=
  match n with
  | Zpos p =>
      SFdiv prec emax (S754_finite neg p 0)
            (S754_finite false (Z.to_pos (10 ^ k)) 0)
  | _ => S754_zero neg
  end.

(** [float(n)] for an [int] [n]. *)
Definition float_of_int (n : Z) : float := binary_normalize prec emax n 0 false.

Fixpoint digits_val (acc : Z) (s : str) : Z :=
  match s with
  | [] => acc
  | a :: s' => digits_val (10 * acc + digit_val a) s'
  end.

Fixpoint span_digits (s : str) : str * str :=
  match s with
  | a :: s' =>
      if is_digit a then let (d, r) := span_digits s' in (a :: d, r)
      else ([], s)
  | [] => ([], [])
  end.

(** [float(s)] on plain decimal literals: an optional sign, digits,
    an optional point, digits, with a digit somewhere.  Both groups
    of the coordinate patterns are of that shape; exponents, [inf],
    [nan], underscores and blanks, which [float] also reads, cannot
    reach it from this program and are answered like any other text. *)
Definition py_float (s : str) : result float :=
  let unsigned neg t :=
    let (ip, r) := span_digits t in
    let (fp, r') :=
      match r with
      | a :: r1 => if Ascii.eqb a "." then span_digits r1 else ([], r)
      | [] => ([], r)
      end in
    match r', ip ++ fp with
    | [], _ :: _ =>
        Ok (float_of_decimal neg (digits_val 0 (ip ++ fp))
                             (Z.of_nat (List.length fp)))
    | _, _ => Raise ValueError
    end in
  match s with
  | a :: t =>
      if Ascii.eqb a "-" then unsigned true t
      else if Ascii.eqb a "+" then unsigned false t
      else unsigned false s
  | [] => Raise ValueError
  end.

(** [int(f)] for a float [f]: truncation towards zero. *)
Definition py_int_of_float (f : float) : result Z :=
  match f with
  | S754_zero _ => Ok 0
  | S754_finite s m e => Ok (cond_Zopp s (Z.shiftl (Zpos m) e))
  | S754_infinity _ => Raise OverflowError
  | S754_nan => Raise ValueError
  end.

(** [int(w * f)] for the canvas dimension [w]. *)
Definition scale (w : Z) (f : float) : result Z :=
  py_int_of_float (fmul (float_of_int w) f).

Definition coords : Type := option Z * option Z.

Definition _parse_coords (arg_str : str) : result coords :=
  let m := match re_search NAMED_COORD arg_str with
           | Some m => Some m
           | None => re_search COORD_PAIR arg_str
           end in
  match m with
  | None => Ok (None, None)
  | Some m =>
      fx <- py_float (group 1 m) ;;
      x <- scale 1920 fx ;;
      fy <- py_float (group 2 m) ;;
      y <- scale 1080 fy ;;
      Ok (Some x, Some y)
  end.


(** ** The Action Recognizer *)

Inductive MouseAction : Type :=
| Click (type : str) (x y : option Z)      (* click, rightClick, doubleClick *)
| Scroll (x y : option Z) (clicks : Z)
| Drag (startX startY endX endY : option Z).

Inductive KeyboardAction : Type :=
| TypeText (text : str)
| Press (key : str).

(** The call shapes, in the order [build_actions] tries them.  Each is
    [pyautogui\.NAME\(ARGS\)], where ARGS is the group made of the
    class [[^)]] under a greedy star. *)
Definition call (name : regex) (n : nat) : regex :=
  Seq (Lit "pyautogui.") (Seq name (Seq (Lit "(")
    (Seq (Grp n (Star true not_rparen)) (Lit ")")))).

(** [pyautogui\.(click|rightClick|doubleClick)\(ARGS\)] *)
Definition click_re : regex :=
  call (Grp 1 (Alt (Lit "click") (Alt (Lit "rightClick") (Lit "doubleClick")))) 2.
(** [pyautogui\.scroll\(ARGS\)] *)
Definition scroll_re : regex := call (Lit "scroll") 1.
(** [pyautogui\.(moveTo|click)\(ARGS\)] *)
Definition anchor_re : regex :=
  call (Grp 1 (Alt (Lit "moveTo") (Lit "click"))) 2.
(** [pyautogui\.dragTo\(ARGS\)] *)
Definition dragto_re : regex := call (Lit "dragTo") 1.
(** [pyautogui\.(write|typewrite)\(ARGS\)] *)
Definition write_re : regex :=
  call (Grp 1 (Alt (Lit "write") (Lit "typewrite"))) 2.
(** [pyautogui\.press\(ARGS\)] *)
Definition press_re : regex := call (Lit "press") 1.

(** [[Q](.+?)[Q]], where [[Q]] is the class of the two quote
    characters *)
Definition quoted_re : regex :=
  Seq (Cls is_quote) (Seq (Grp 1 (Plus false dot)) (Cls is_quote)).
(** [(?:message=)?[Q](.+?)[Q]] *)
Definition message_re : regex := Seq (Opt (Lit "message=")) quoted_re.

(** [re.search(r, s).group(1)]: [None] has no [group]. *)
Definition search_group1 (r : regex) (s : str) : result str :=
  match re_search r s with
  | Some m => Ok (group 1 m)
  | None => Raise AttributeError
  end.

(** The three local variables of the scan. *)
Record scan : Type := Scan {
  mouse_action : option MouseAction;
  keyboard_action : option KeyboardAction;
  start_coords : option coords
}.

Definition scan0 : scan := Scan None None None.

(** The [if]/[elif] chain: the first pattern that matches the line
    decides the branch, with the groups the branch reads. *)
Inductive shape : Type :=
| IsClick (func args : str)
| IsScroll (args : str)
| IsAnchor (args : str)
| IsDragTo (args : str)
| IsWrite (args : str)
| IsPress (args : str)
| Other.

Definition shape_of (line : str) : shape :=
  match re_match click_re line with
  | Some m => IsClick (group 1 m) (group 2 m)
  | None =>
  match re_match scroll_re line with
  | Some m => IsScroll (group 1 m)
  | None =>
  match re_match anchor_re line with
  | Some m => IsAnchor (group 2 m)
  | None =>
  match re_match dragto_re line with
  | Some m => IsDragTo (group 1 m)
  | None =>
  match re_match write_re line with
  | Some m => IsWrite (group 2 m)
  | None =>
  match re_match press_re line with
  | Some m => IsPress (group 1 m)
  | None => Other
  end end end end end end.

(** One turn of the loop over the lines: the body of the branch. *)
Definition scan_line (st : scan) (line : str) : result scan :=
  match shape_of line with
  | IsClick func args =>
      xy <- _parse_coords args ;;
      Ok (Scan (Some (Click func (fst xy) (snd xy)))
               (keyboard_action st) (start_coords st))
  | IsScroll args =>
      clicks <- py_int (strip (before_comma args)) ;;
      xy <- _parse_coords args ;;
      Ok (Scan (Some (Scroll (fst xy) (snd xy) clicks))
               (keyboard_action st) (start_coords st))
  | IsAnchor args =>
      xy <- _parse_coords args ;;
      Ok (Scan (mouse_action st) (keyboard_action st) (Some xy))
  | IsDragTo args =>
      end_coords <- _parse_coords args ;;
      (* a pair is a true value whatever it holds, [None] is not *)
      match start_coords st with
      | Some start =>
          Ok (Scan (Some (Drag (fst start) (snd start)
                               (fst end_coords) (snd end_coords)))
                   (keyboard_action st) (start_coords st))
      | None => Ok st
      end
  | IsWrite args =>
      txt <- search_group1 message_re args ;;
      Ok (Scan (mouse_action st) (Some (TypeText txt)) (start_coords st))
  | IsPress args =>
      key <- search_group1 quoted_re args ;;
      Ok (Scan (mouse_action st) (Some (Press key)) (start_coords st))
  | Other => Ok st
  end.

Fixpoint scan_lines (st : scan) (lines : list str) : result scan :=
  match lines with
  | [] => Ok st
  | line :: rest => st' <- scan_line st line ;; scan_lines st' rest
  end.

(** [[ln.strip() for ln in code.splitlines() if ln.strip()]] *)
Definition code_lines (code : str) : list str :=
  map strip (filter (fun ln => match strip ln with [] => false | _ => true end)
                    (splitlines code)).

Definition build_actions (code : str)
  : result (option MouseAction * option KeyboardAction) :=
  st <- scan_lines scan0 (code_lines code) ;;
  Ok (mouse_action st, keyboard_action st).

(** ** The Task Aggregator *)

(** A parsed JSON document. *)
#[warnings="-register-all"]
Inductive json : Type :=
| JNull
| JBool (b : bool)
| JInt (n : Z)
| JFloat (f : float)
| JStr (s : str)
| JArr (l : list json)
| JObj (d : list (str * json)).

(** [d.get(key)], [None] when the key is absent. *)
Fixpoint dict_get (key : str) (d : list (str * json)) : option json :=
  match d with
  | [] => None
  | (k, v) :: d' => if str_eqb k key then Some v else dict_get key d'
  end.

(** Truth value of a Python object read from JSON. *)
Definition truthy (v : json) : bool :=
  match v with
  | JNull => false
  | JBool b => b
  | JInt n => negb (n =? 0)
  | JFloat f => match f with S754_zero _ => false | _ => true end
  | JStr s => match s with [] => false | _ => true end
  | JArr l => match l with [] => false | _ => true end
  | JObj d => match d with [] => false | _ => true end
  end.

(** [cfg.get("instruction") or cfg.get("prompt", "").strip()] *)
Definition read_instruction (cfg : json) : result json :=
  match cfg with
  | JObj d =>
      match dict_get "instruction" d with
      | Some v =>
          if truthy v then Ok v else
          match dict_get "prompt" d with
          | Some (JStr p) => Ok (JStr (strip p))
          | Some _ => Raise AttributeError
          | None => Ok (JStr [])
          end
      | None =>
          match dict_get "prompt" d with
          | Some (JStr p) => Ok (JStr (strip p))
          | Some _ => Raise AttributeError
          | None => Ok (JStr [])
          end
      end
  | _ => Raise AttributeError
  end.

(** One record of the step log, already read from its line. *)
Record row : Type := Row {
  step_num : Z;
  response : str;
  screenshot_file : str
}.

Record Step : Type := MkStep {
  stepNum : Z;
  thought : str;
  action : str;
  code_block : str;
  step_response : str;
  image : str;
  mouseAction : option MouseAction;
  keyboardAction : option KeyboardAction
}.

Record Task : Type := MkTask {
  id : str;
  steps : list Step;
  instruction : json
}.

(** The body of the loop over the step log. *)
Definition process_row (task_id : str) (r : row) : result Step :=
  let '(thought, action_desc, code_block) := extract_sections (response r) in
  acts <- build_actions code_block ;;
  let action_desc :=
    if contains "computer.terminate" code_block then of_string "DONE"
    else action_desc in
  Ok (MkStep (step_num r) thought action_desc code_block
             (strip (response r))
             (of_string "./static/trajs/" ++ task_id ++ of_string "/"
                ++ screenshot_file r)
             (fst acts) (snd acts)).

Fixpoint process_rows (task_id : str) (rows : list row) : result (list Step) :=
  match rows with
  | [] => Ok []
  | r :: rest =>
      st <- process_row task_id r ;;
      sts <- process_rows task_id rest ;;
      Ok (st :: sts)
  end.

(** [cfg] is the content of [config.json] when that file exists,
    [traj] the records of [traj.jsonl]. *)
Definition process_task (task_id : str) (cfg : option json) (traj : list row)
  : result Task :=
  instruction <- match cfg with
                 | Some c => read_instruction c
                 | None => Ok (JStr [])
                 end ;;
  steps <- process_rows task_id traj ;;
  Ok (MkTask task_id steps instruction).


(** An entry of [ROOT_DIR]: its name, whether it is a directory and,
    for the files [config.json] and [traj.jsonl] inside it, their
    parsed content when they exist. *)
Record entry : Type := Entry {
  entry_name : str;
  is_dir : bool;
  config_json : option json;
  traj_jsonl : option (list row)
}.

(** The loop of [main] over [ROOT_DIR.iterdir()]: the list [tasks]. *)
Fixpoint collect_tasks (items : list entry) : result (list Task) :=
  match items with
  | [] => Ok []
  | item :: rest =>
      if negb (is_dir item) then collect_tasks rest
      else
        match traj_jsonl item with
        | None => collect_tasks rest
        | Some rows =>
            t <- process_task (entry_name item) (config_json item) rows ;;
            ts <- collect_tasks rest ;;
            Ok (t :: ts)
        end
  end.

(** [main]: the tasks written to [trajectory.jsonl], one per line, in
    this order; the JSON text of a task is not modelled.  The file is
    opened after the loop, so nothing is written when the loop raises. *)
Definition main (items : list entry) : result (list Task) :=
  collect_tasks items.


(** * Vocabulary of the statements *)

(** ** Runs of a character class *)

(** A repetition of class [c] cannot go on into [s]. *)
Definition stops (c : ascii -> bool) (s : str) : Prop :=
  match s with
  | [] => True
  | a :: _ => c a = false
  end.

(** What follows the header word: blanks, a line feed, the text. *)
Definition header_tail : regex :=
  Seq ws (Seq (Lit LF) (Grp 1 (Plus true not_hash_tick))).

(** What follows the fence tag: blanks, the body, the closing fence. *)
Definition fence_tail : regex :=
  Seq ws (Seq (Grp 1 (Plus false not_tick)) (Lit "```")).

(** ** Sections of a response *)

(** A response laid out as text, a Thought header and its text, an
    Action header and its text, a fence with its tag and body, text. *)
Definition response_of (pre T A tag C post : str) : str :=
  pre ++ of_string "## Thought:" ++ LF ++ T
      ++ of_string "## Action:" ++ LF ++ A
      ++ of_string "```" ++ tag ++ C ++ of_string "```" ++ post.

(** The fence tag is one the pattern knows, or there is none and the
    body does not begin like one. *)
Definition plain_fence (tag C : str) : Prop :=
  tag = of_string "python" \/ tag = of_string "code"
  \/ (tag = [] /\ strip_prefix "python" C = None /\ strip_prefix "code" C = None).

(** The section rule as the specification words it: the text between
    a header and the next header marker or fence, trimmed. *)
Definition sections_enclosed (T A C : str) : Prop :=
  contains "##" T = false -> contains "```" T = false ->
  contains "##" A = false -> contains "```" A = false ->
  contains "```" C = false ->
  extract_sections (response_of [] T A "python" C [])
  = (strip T, strip A, strip C).

Definition issue_thought : str := "See issue #3.
".
Definition issue_action : str := "Click the link.
".
Definition issue_code : str := "
pyautogui.click(0.1, 0.2)
".

Definition plain_thought : str := "I should click the button.
".
Definition plain_action : str := "Click the button.
".

(** ** Number literals *)

(** The characters of a decimal literal. *)
Definition num_char (a : ascii) : bool :=
  is_sign a || is_digit a || Ascii.eqb a ".".

Definition signed (s : str) : Prop :=
  s = [] \/ s = of_string "-" \/ s = of_string "+".

Definition digits (d : str) : Prop := d <> [] /\ forallb is_digit d = true.

(** An optional sign and digits. *)
Definition int_literal (n : str) : Prop :=
  exists s d, n = s ++ d /\ signed s /\ digits d.

(** An optional sign and digits, or digits with a point among them
    and a digit after it. *)
Definition decimal_literal (c : str) : Prop :=
  int_literal c
  \/ exists s i f, c = s ++ i ++ "."%char :: f /\ signed s
                   /\ forallb is_digit i = true /\ digits f.

(** A number cannot go on into [s]. *)
Definition ends_number (s : str) : Prop :=
  match s with
  | [] => True
  | a :: _ => is_digit a = false /\ a <> "."%char
  end.

(** The texts the number pattern can capture: an optional sign,
    digits, an optional point, and at least one digit. *)
Definition number_text (c : str) : Prop :=
  exists s i d f,
    c = s ++ i ++ d ++ f /\ signed s /\ forallb is_digit i = true
    /\ (d = [] \/ d = of_string ".") /\ digits f.

Definition not_nan (f : float) : Prop := f <> S754_nan.

(** ** Scaled coordinates *)

(** The exact value of a finite float, as numerator and denominator. *)
Definition exact (f : float) : option (Z * Z) :=
  match f with
  | S754_zero _ => Some (0, 1)
  | S754_finite s m e =>
      Some (cond_Zopp s (Zpos m * 2 ^ Z.max e 0), 2 ^ Z.max (- e) 0)
  | _ => None
  end.





(** ** Lines of a code block *)

Definition anchors (line : str) : bool :=
  match shape_of line with
  | IsAnchor _ => true
  | _ => false
  end.

(** The branches that may assign [mouse_action]. *)
Definition sets_mouse (line : str) : bool :=
  match shape_of line with
  | IsClick _ _ | IsScroll _ | IsDragTo _ => true
  | _ => false
  end.

(** The line takes the anchor branch and its arguments parse to [xy]. *)
Definition anchor_at (line : str) (xy : coords) : Prop :=
  exists args, shape_of line = IsAnchor args /\ _parse_coords args = Ok xy.

(** The line takes the drag-to branch and its arguments parse to [xy]. *)
Definition dragto_at (line : str) (xy : coords) : Prop :=
  exists args, shape_of line = IsDragTo args /\ _parse_coords args = Ok xy.

(** The pending drag-start [xy] comes from the latest anchor line. *)
Definition start_from (done : list str) (xy : coords) : Prop :=
  exists pre anchor mid,
    done = pre ++ anchor :: mid
    /\ anchor_at anchor xy
    /\ Forall (fun l => anchors l = false) mid.

(** The drag record [s], [e] comes from the last line that assigns the
    MouseAction, a drag-to line, and the latest anchor line before it. *)
Definition drag_from (done : list str) (s e : coords) : Prop :=
  exists pre anchor mid dragto post,
    done = pre ++ anchor :: mid ++ dragto :: post
    /\ anchor_at anchor s
    /\ Forall (fun l => anchors l = false) mid
    /\ dragto_at dragto e
    /\ Forall (fun l => sets_mouse l = false) post.

(** What the scan knows after the lines [done]. *)
Record scan_inv (done : list str) (st : scan) : Prop := ScanInv {
  inv_start : forall xy, start_coords st = Some xy -> start_from done xy;
  inv_drag : forall sx sy ex ey,
    mouse_action st = Some (Drag sx sy ex ey) ->
    drag_from done (sx, sy) (ex, ey) /\ start_coords st <> None
}.

(** The drag-start rule as the specification words it: a drag record
    is made of an anchor line and the drag-to line right after it. *)
Definition drag_start_directly_before (code : str) : Prop :=
  forall sx sy ex ey k,
    build_actions code = Ok (Some (Drag sx sy ex ey), k) ->
    exists pre anchor dragto post,
      code_lines code = pre ++ anchor :: dragto :: post
      /\ anchor_at anchor (sx, sy) /\ dragto_at dragto (ex, ey).




(** ** Tasks *)

(** The instruction rule as the specification words it: an
    [instruction] string of the configuration is the Task's. *)
Definition instruction_is_configured (d : list (str * json)) : Prop :=
  forall s task_id traj t,
    dict_get "instruction" d = Some (JStr s) ->
    process_task task_id (Some (JObj d)) traj = Ok t ->
    instruction t = JStr s.

(** How the step [s] made from the record [r] stands to the sections
    of the response. *)
Definition terminate_rule (r : row) (s : Step) : Prop :=
  let '(_, a, c) := extract_sections (response r) in
  code_block s = c
  /\ action s = if contains "computer.terminate" c then of_string "DONE" else a.

(** ** Calls *)

(** The line [pyautogui.NAME(ARGS)REST]. *)
Definition call_line (name args rest : str) : str :=
  of_string "pyautogui." ++ name ++ of_string "(" ++ args ++ of_string ")" ++ rest.

Definition click_name (fn : str) : Prop :=
  fn = of_string "click" \/ fn = of_string "rightClick"
  \/ fn = of_string "doubleClick".

Definition no_digit (s : str) : Prop :=
  forallb (fun a => negb (is_digit a)) s = true.

(** Arguments that name their coordinates, after the text [pre]. *)
Definition named_args (pre c1 c2 tail : str) : str :=
  pre ++ of_string "x=" ++ c1 ++ of_string ", y=" ++ c2 ++ tail.

(** The branches that may assign [keyboard_action]. *)
Definition sets_keyboard (line : str) : bool :=
  match shape_of line with
  | IsWrite _ | IsPress _ => true
  | _ => false
  end.

(** The line starts with [pyautogui.]. *)
Definition is_call (line : str) : bool :=
  match strip_prefix "pyautogui." line with
  | Some _ => true
  | None => false
  end.

(** The exceptions a line may raise, by the branch it takes. *)
Definition may_raise (sh : shape) (e : exn) : Prop :=
  match sh with
  | IsClick _ _ | IsAnchor _ | IsDragTo _ => e = OverflowError
  | IsScroll _ => e = ValueError \/ e = OverflowError
  | IsWrite _ | IsPress _ => e = AttributeError
  | Other => False
  end.

(** ** Texts of several lines *)

(** The lines joined by line feeds. *)
Fixpoint join_lines (lines : list str) : str :=
  match lines with
  | [] => []
  | [l] => l
  | l :: rest => l ++ LF ++ join_lines rest
  end.

(** No line boundary inside. *)
Definition one_line (s : str) : Prop :=
  forallb (fun a => negb (is_linebreak a)) s = true.

Definition blank (s : str) : bool :=
  match strip s with [] => true | _ => false end.

(** Neither end of [s] is a blank. *)
Definition trimmed (s : str) : Prop :=
  stops is_space s /\ stops is_space (rev s).

(** ** Directories *)

(** The entries [main] turns into tasks. *)
Definition has_log (item : entry) : bool :=
  is_dir item && match traj_jsonl item with Some _ => true | None => false end.

(** The step made of a record, as far as the record alone decides it. *)
Definition step_of_row (task_id : str) (r : row) (s : Step) : Prop :=
  stepNum s = step_num r
  /\ step_response s = strip (response r)
  /\ image s = of_string "./static/trajs/" ++ task_id ++ of_string "/"
                 ++ screenshot_file r
  /\ (thought s, code_block s)
     = (fst (fst (extract_sections (response r))),
        snd (extract_sections (response r)))
  /\ build_actions (code_block s) = Ok (mouseAction s, keyboardAction s).

(** The names of the calls the scan knows. *)
Definition known_names : list str :=
  [of_string "click"; of_string "rightClick"; of_string "doubleClick";
   of_string "scroll"; of_string "moveTo"; of_string "dragTo";
   of_string "write"; of_string "typewrite"; of_string "press"].

Definition not_lparen (a : ascii) : bool := negb (Ascii.eqb a "(").

(** A name without parenthesis that is none of the known ones. *)
Definition unknown_name (name : str) : Prop :=
  forallb not_lparen name = true /\ ~ In name known_names.

(** ** Sample inputs *)

(** [pyautogui.click(99...9, 0)] with 310 nines. *)
Definition click_huge : str :=
  of_string "pyautogui.click(" ++ repeat "9"%char 310 ++ of_string ", 0)".

Definition click_then_drag : str :=
  "pyautogui.click(0.1, 0.2)
pyautogui.dragTo(0.3, 0.4)".

Definition move_press_drag : str :=
  "pyautogui.moveTo(0.1, 0.2)
pyautogui.press('a')
pyautogui.dragTo(0.3, 0.4)".

Definition move_drag_drag : str :=
  "pyautogui.moveTo(0.1, 0.2)
pyautogui.dragTo(0.3, 0.4)
pyautogui.dragTo(0.5, 0.6)".



Definition empty_instruction : list (str * json) :=
  [(of_string "instruction", JStr []);
   (of_string "prompt", JStr " open the file ")].

Definition terminate_response : str :=
  "## Action:
Finish the task.
```code
computer.terminate(status='success')
```".

Definition terminate_traj : list row :=
  [Row 3 terminate_response "step_3.png"].

Definition terminate_task : Task :=
  MkTask "task1"
    [MkStep 3 [] "DONE" "computer.terminate(status='success')"
            terminate_response "./static/trajs/task1/step_3.png" None None]
    (JStr []).

Definition commented_click : str :=
  "# open the menu
pyautogui.click(0.1, 0.2)
print('done')".

Definition bare_click : str := "pyautogui.click(0.1, 0.2)".

Definition indented_lines : list str :=
  [of_string "  pyautogui.click(0.1, 0.2)  "; of_string "   "; [];
   of_string "pyautogui.press('enter')"].

Definition press_without_key : str :=
  "## Action:
Press the key.
```python
pyautogui.press()
```".

Definition broken_traj : list row :=
  [Row 1 terminate_response "step_1.png";
   Row 2 press_without_key "step_2.png";
   Row 3 terminate_response "step_3.png"].

(** A data directory: a file, a directory without a step log, and a
    task directory. *)
Definition sample_root : list entry :=
  [Entry "trajectory.jsonl" false None None;
   Entry "notes" true None None;
   Entry "task1" true None (Some terminate_traj)].

Definition broken_root : list entry :=
  sample_root ++ [Entry "task2" true None (Some broken_traj);
                  Entry "task3" true None (Some terminate_traj)].

Definition scroll_without_amount : str :=
  "pyautogui.click(0.1, 0.2)
pyautogui.scroll(x=0.5, y=0.5)".

(** The scan after a click, two keyboard lines, and the scan after
    them. *)
Definition clicked : scan :=
  Scan (Some (Click "click" (Some 192) (Some 216))) None None.

Definition keys_after_click : list str :=
  [of_string "pyautogui.write('hello')"; of_string "time.sleep(1)";
   of_string "pyautogui.press('enter')"].

Definition typed_after_click : scan :=
  Scan (Some (Click "click" (Some 192) (Some 216))) (Some (Press "enter")) None.

(** * Properties *)

(** ** Strings *)

Lemma strip_prefix_app (p s : str) : strip_prefix p (p ++ s) = Some s.
Proof.
  induction p as [|a p IH]; cbn; [reflexivity|].
  rewrite Ascii.eqb_refl. exact IH.
Qed.

Lemma strip_prefix_Some (p s s' : str) :
  strip_prefix p s = Some s' -> s = p ++ s'.
Proof.
  revert s. induction p as [|a p IH]; intros s H; cbn in *.
  - congruence.
  - destruct s as [|b s]; [discriminate|].
    destruct (Ascii.eqb a b) eqn:E; [|discriminate].
    apply Ascii.eqb_eq in E. subst b. f_equal. auto.
Qed.


(** A literal without backtick that the body refuses is refused
    before the closing fence too. *)
Lemma strip_prefix_none_app (l C R : str) :
  forallb not_tick l = true ->
  strip_prefix l C = None ->
  strip_prefix l (C ++ "`"%char :: R) = None.
Proof.
  revert C. induction l as [|a l IH]; intros C Hl H; [discriminate|].
  cbn in Hl. apply andb_prop in Hl as [Ha Hl].
  destruct C as [|b C]; cbn [app strip_prefix] in *.
  - unfold not_tick in Ha. destruct (Ascii.eqb a "`"); [discriminate|reflexivity].
  - destruct (Ascii.eqb a b); [auto|reflexivity].
Qed.

Lemma contains_app_r (l p s : str) :
  contains l s = true -> contains l (p ++ s) = true.
Proof.
  intros H. induction p as [|a p IH]; [exact H|].
  cbn [app contains]. rewrite IH. destruct (strip_prefix l (a :: p ++ s)); reflexivity.
Qed.

Lemma contains_here (l s : str) :
  contains l (l ++ s) = true.
Proof. destruct l; cbn [app contains]; rewrite ?strip_prefix_app.
  - destruct s; reflexivity.
  - change (a :: l ++ s) with ((a :: l) ++ s). rewrite strip_prefix_app. reflexivity.
Qed.

Lemma forallb_impl (P Q : ascii -> bool) (s : str) :
  (forall a, P a = true -> Q a = true) ->
  forallb P s = true -> forallb Q s = true.
Proof.
  intros H. induction s as [|a s IH]; cbn; [reflexivity|].
  intros E. apply andb_prop in E as [Ea Es]. rewrite (H a Ea), (IH Es). reflexivity.
Qed.

Lemma ascii_all (P : ascii -> bool) :
  forallb P (map ascii_of_nat (seq 0 256)) = true -> forall a, P a = true.
Proof.
  intros H a. rewrite forallb_forall in H. apply H.
  rewrite <- (ascii_nat_embedding a). apply in_map. apply in_seq.
  pose proof (nat_ascii_bounded a). lia.
Qed.

Lemma lstrip_no_space (s : str) :
  forallb (fun a => negb (is_space a)) s = true -> lstrip s = s.
Proof.
  destruct s as [|a s]; cbn; [reflexivity|].
  intros H. apply andb_prop in H as [Ha _].
  destruct (is_space a); [discriminate|reflexivity].
Qed.

Lemma strip_no_space (s : str) :
  forallb (fun a => negb (is_space a)) s = true -> strip s = s.
Proof.
  intros H. unfold strip, rstrip. rewrite (lstrip_no_space s H).
  rewrite lstrip_no_space; [apply rev_involutive|].
  rewrite forallb_forall in *. intros a Ha. apply H. apply in_rev. exact Ha.
Qed.

Lemma lstrip_app_space (p s : str) :
  forallb is_space p = true -> lstrip (p ++ s) = lstrip s.
Proof.
  induction p as [|a p IH]; cbn; [reflexivity|].
  intros H. apply andb_prop in H as [Ha Hp]. rewrite Ha. auto.
Qed.

Lemma strip_app_space (p s : str) :
  forallb is_space p = true -> strip (p ++ s) = strip s.
Proof. intros H. unfold strip. rewrite lstrip_app_space by exact H. reflexivity. Qed.

Lemma before_comma_app (n s : str) :
  forallb (fun a => negb (Ascii.eqb a ",")) n = true ->
  before_comma (n ++ ","%char :: s) = n.
Proof.
  induction n as [|a n IH]; cbn [app before_comma forallb]; [reflexivity|].
  intros H. apply andb_prop in H as [Ha Hn].
  destruct (Ascii.eqb a ","); [discriminate|]. rewrite (IH Hn). reflexivity.
Qed.

(** ** The matcher *)

Lemma consumed_app (p s : str) : consumed (p ++ s) s = p.
Proof.
  unfold consumed. rewrite length_app.
  replace (List.length p + List.length s - List.length s)%nat
    with (List.length p) by lia.
  rewrite firstn_app, Nat.sub_diag, firstn_all. cbn. apply app_nil_r.
Qed.

Section RepeatFacts.

Context {A : Type} (c : ascii -> bool) (k : str -> option A).

Lemma rep_greedy_stop (s : str) : stops c s -> rep_greedy c k s = k s.
Proof. destruct s as [|a s]; cbn; [reflexivity|]. intros ->. reflexivity. Qed.

Lemma rep_greedy_inner (p s : str) (r : A) :
  forallb c p = true ->
  rep_greedy c k s = Some r -> rep_greedy c k (p ++ s) = Some r.
Proof.
  induction p as [|a p IH]; cbn; [auto|].
  intros H Hr. apply andb_prop in H as [Ha Hp].
  rewrite Ha, (IH Hp Hr). reflexivity.
Qed.

(** The longest run wins when what follows accepts it. *)
Lemma rep_greedy_run (p s : str) (r : A) :
  forallb c p = true -> stops c s -> k s = Some r ->
  rep_greedy c k (p ++ s) = Some r.
Proof.
  intros Hp Hs Hk. apply rep_greedy_inner; [exact Hp|].
  rewrite rep_greedy_stop; assumption.
Qed.

Lemma rep_greedy_sound (s : str) (r : A) :
  rep_greedy c k s = Some r ->
  exists p s', s = p ++ s' /\ forallb c p = true /\ k s' = Some r.
Proof.
  induction s as [|a s IH]; cbn.
  - intros H. exists [], []. auto.
  - destruct (c a) eqn:Ha.
    + destruct (rep_greedy c k s) as [r'|] eqn:E.
      * intros H. injection H as ->.
        destruct (IH eq_refl) as (p & s' & -> & Hp & Hk).
        exists (a :: p), s'. cbn. rewrite Ha, Hp. auto.
      * intros H. exists [], (a :: s). auto.
    + intros H. exists [], (a :: s). auto.
Qed.

Lemma rep_greedy_complete (p s : str) :
  forallb c p = true -> k s <> None -> rep_greedy c k (p ++ s) <> None.
Proof.
  induction p as [|a p IH]; cbn.
  - intros _ Hk. destruct s as [|b s]; cbn; [exact Hk|].
    destruct (c b); [|exact Hk].
    destruct (rep_greedy c k s); [discriminate|exact Hk].
  - intros H Hk. apply andb_prop in H as [Ha Hp]. rewrite Ha.
    specialize (IH Hp Hk).
    destruct (rep_greedy c k (p ++ s)); [discriminate|contradiction].
Qed.

Lemma rep_lazy_sound (s : str) (r : A) :
  rep_lazy c k s = Some r ->
  exists p s', s = p ++ s' /\ forallb c p = true /\ k s' = Some r.
Proof.
  induction s as [|a s IH]; cbn.
  - destruct (k []) eqn:E; [|discriminate].
    intros H. exists [], []. rewrite E. auto.
  - destruct (k (a :: s)) eqn:E.
    + intros H. exists [], (a :: s). rewrite E. auto.
    + destruct (c a) eqn:Ha; [|discriminate].
      intros H. destruct (IH H) as (p & s' & -> & Hp & Hk).
      exists (a :: p), s'. cbn. rewrite Ha, Hp. auto.
Qed.

Lemma rep_lazy_complete (p s : str) :
  forallb c p = true -> k s <> None -> rep_lazy c k (p ++ s) <> None.
Proof.
  induction p as [|a p IH]; cbn.
  - intros _ Hk. destruct s as [|b s]; cbn.
    + destruct (k []); [discriminate|contradiction].
    + destruct (k (b :: s)); [discriminate|contradiction].
  - intros H Hk. apply andb_prop in H as [Ha Hp].
    destruct (k (a :: p ++ s)); [discriminate|].
    rewrite Ha. auto.
Qed.


End RepeatFacts.

Section Runs.

Context {A : Type} (c : ascii -> bool).

(** With a continuation that always accepts, the longest run is taken. *)
Lemma rep_greedy_longest (k : str -> option A) (s : str) :
  (forall x, k x <> None) ->
  exists p s', s = p ++ s' /\ forallb c p = true /\ stops c s'
               /\ rep_greedy c k s = k s'.
Proof.
  intros Hk. induction s as [|a s IH].
  - exists [], []. cbn. auto.
  - destruct (c a) eqn:Ha.
    + destruct IH as (p & s' & -> & Hp & Hs & E).
      exists (a :: p), s'. cbn. rewrite Ha, Hp, E.
      destruct (k s') eqn:Ek; [auto|]. destruct (Hk s' Ek).
    + exists [], (a :: s). cbn. rewrite Ha. auto.
Qed.

(** A run that cannot go on is determined by the text. *)
Lemma run_unique (u v r s : str) :
  forallb c u = true -> forallb c v = true -> stops c r -> stops c s ->
  u ++ r = v ++ s -> u = v /\ r = s.
Proof.
  revert v. induction u as [|a u IH]; intros v Hu Hv Hr Hs E.
  - destruct v as [|b v]; [auto|]. cbn in E. subst r. cbn in Hr, Hv.
    apply andb_prop in Hv as [Hb _]. congruence.
  - destruct v as [|b v].
    + cbn in E. subst s. cbn in Hs, Hu.
      apply andb_prop in Hu as [Ha _]. congruence.
    + cbn in E. injection E as -> E. cbn in Hu, Hv.
      apply andb_prop in Hu as [_ Hu]. apply andb_prop in Hv as [_ Hv].
      destruct (IH v Hu Hv Hr Hs E) as [-> ->]. auto.
Qed.

End Runs.

(** A pattern that opens with a literal cannot start at a character
    other than the literal's first one. *)
Lemma re_search_skip (a : ascii) (l : str) (r : regex) (p s : str) :
  forallb (fun b => negb (Ascii.eqb a b)) p = true ->
  re_search (Seq (Lit (a :: l)) r) (p ++ s) = re_search (Seq (Lit (a :: l)) r) s.
Proof.
  induction p as [|b p IH]; [reflexivity|].
  cbn [forallb app]. intros H. apply andb_prop in H as [Hb Hp].
  cbn [re_search]. unfold re_match at 1. cbn [matchk strip_prefix].
  destruct (Ascii.eqb a b); [discriminate|]. auto.
Qed.

Lemma re_search_found (r : regex) (p s : str) (m : caps) :
  (forall p1 p2, p = p1 ++ p2 -> p2 <> [] -> re_match r (p2 ++ s) = None) ->
  re_match r s = Some m ->
  re_search r (p ++ s) = Some m.
Proof.
  induction p as [|a p IH]; intros Hno Hm.
  - cbn. destruct s; cbn; rewrite Hm; reflexivity.
  - assert (E : re_match r ((a :: p) ++ s) = None)
      by (apply (Hno [] (a :: p)); [reflexivity|discriminate]).
    cbn in E |- *. rewrite E.
    apply IH; [|exact Hm].
    intros p1 p2 -> Hne. apply (Hno (a :: p1) p2); [reflexivity|exact Hne].
Qed.

Lemma re_search_here (r : regex) (s : str) (m : caps) :
  re_match r s = Some m -> re_search r s = Some m.
Proof. intros H. destruct s; cbn; rewrite H; reflexivity. Qed.


Lemma re_search_sound (r : regex) (s : str) (m : caps) :
  re_search r s = Some m ->
  exists p s', s = p ++ s' /\ re_match r s' = Some m.
Proof.
  induction s as [|a s IH]; cbn.
  - destruct (re_match r []) eqn:E; [|discriminate].
    intros H. exists [], []. rewrite E. auto.
  - destruct (re_match r (a :: s)) eqn:E.
    + intros H. exists [], (a :: s). rewrite E. auto.
    + intros H. destruct (IH H) as (p & s' & -> & Hm).
      exists (a :: p), s'. auto.
Qed.

(** The literal at the head of the pattern is refused by the text. *)
Ltac lit_fail :=
  match goal with
  | |- context [strip_prefix ?l ?s] =>
      replace (strip_prefix l s) with (@None str) by reflexivity
  end.

Lemma args_match (n : nat) (g : caps) (k : str -> caps -> option caps)
      (args rest : str) (r : caps) :
  forallb not_rparen args = true ->
  k rest ((n, args) :: g) = Some r ->
  matchk (Seq (Grp n (Star true not_rparen)) (Lit ")"))
         (args ++ of_string ")" ++ rest) g k = Some r.
Proof.
  intros Ha Hk. cbn [matchk].
  apply rep_greedy_run; [exact Ha|reflexivity|].
  rewrite strip_prefix_app, consumed_app. exact Hk.
Qed.

(** ** Lines that raise *)

(** C1 (the code departs from it): [build_actions] does not tolerate
    every code segment.  A [press] or [write] call without a quoted
    literal makes [re.search] return [None], whose [group] raises
    AttributeError; a [scroll] call whose first argument is not an
    integer makes [int] raise ValueError; a coordinate of 310 digits
    is read as an infinite float, on which [int] raises OverflowError. *)
Theorem build_actions_raises :
  build_actions "pyautogui.press()" = Raise AttributeError
  /\ build_actions "pyautogui.write(text)" = Raise AttributeError
  /\ build_actions "pyautogui.scroll(x=0.5, y=0.5)" = Raise ValueError
  /\ build_actions click_huge = Raise OverflowError.
Proof. repeat split; vm_compute; reflexivity. Qed.

(** Lines outside the vocabulary are skipped. *)
Lemma scan_line_other (st : scan) (line : str) :
  strip_prefix "pyautogui." line = None -> scan_line st line = Ok st.
Proof.
  intros H. unfold scan_line, shape_of, re_match.
  unfold click_re, scroll_re, anchor_re, dragto_re, write_re, press_re, call.
  cbn [matchk]. rewrite H. reflexivity.
Qed.

(** ** Click followed by drag-to *)

(** C2 (the code departs from it): a [click] line followed by a
    [dragTo] line gives the click record, not a drag: the click line is
    taken by the first branch, so it sets the MouseAction and leaves no
    pending drag-start for the [dragTo] line. *)
Theorem click_then_drag_is_click :
  build_actions click_then_drag
  = Ok (Some (Click "click" (Some 192) (Some 216)), None).
Proof. vm_compute. reflexivity. Qed.

(** The [click] alternative of the anchor pattern is never reached:
    whatever it matches, the click pattern matches before it. *)
Lemma anchor_is_moveTo (line : str) (m : caps) :
  re_match click_re line = None ->
  re_match anchor_re line = Some m ->
  group 1 m = "moveTo".
Proof.
  unfold re_match, click_re, anchor_re, call. cbn [matchk].
  destruct (strip_prefix "pyautogui." line) as [s1|]; [|discriminate].
  destruct (strip_prefix "click" s1) as [s2|] eqn:Hc.
  - destruct (strip_prefix "moveTo" s1) as [s3|] eqn:Hm.
    + apply strip_prefix_Some in Hc, Hm. subst s1. discriminate.
    + match goal with
      | |- match ?X with _ => _ end = None -> _ =>
          destruct X; [discriminate|]
      end.
      intros _ H. discriminate.
  - intros _.
    destruct (strip_prefix "moveTo" s1) as [s3|] eqn:Hm; [|discriminate].
    apply strip_prefix_Some in Hm. subst s1.
    destruct (strip_prefix "(" s3) as [s4|]; [|discriminate].
    match goal with
    | |- match ?X with _ => _ end = _ -> _ =>
        destruct X as [m'|] eqn:H; [|discriminate]
    end.
    intros E. injection E as ->.
    apply rep_greedy_sound in H as (p & s' & _ & _ & H).
    destruct (strip_prefix ")" s'); [|discriminate].
    injection H as <-. cbn [group Nat.eqb].
    exact (consumed_app (of_string "moveTo") s3).
Qed.

(** ** The pending drag-start *)

Lemma scan_lines_app (st : scan) (l1 l2 : list str) :
  scan_lines st (l1 ++ l2) = (st' <- scan_lines st l1 ;; scan_lines st' l2).
Proof.
  revert st. induction l1 as [|l l1 IH]; intros st; cbn; [reflexivity|].
  destruct (scan_line st l); cbn; auto.
Qed.

Lemma start_from_snoc (done : list str) (xy : coords) (line : str) :
  start_from done xy -> anchors line = false ->
  start_from (done ++ [line]) xy.
Proof.
  intros (pre & a & mid & -> & Ha & Hmid) Hl.
  exists pre, a, (mid ++ [line]). repeat split; try assumption.
  - rewrite <- app_assoc. reflexivity.
  - apply Forall_app. split; [assumption|]. constructor; [assumption|constructor].
Qed.

Lemma drag_from_snoc (done : list str) (s e : coords) (line : str) :
  drag_from done s e -> sets_mouse line = false ->
  drag_from (done ++ [line]) s e.
Proof.
  intros (pre & a & mid & d & post & -> & Ha & Hmid & Hd & Hpost) Hl.
  exists pre, a, mid, d, (post ++ [line]). repeat split; try assumption.
  - rewrite <- app_assoc. cbn. rewrite <- app_assoc. reflexivity.
  - apply Forall_app. split; [assumption|]. constructor; [assumption|constructor].
Qed.

Lemma drag_from_start (done : list str) (s e : coords) (line : str) :
  start_from done s -> dragto_at line e ->
  drag_from (done ++ [line]) s e.
Proof.
  intros (pre & a & mid & -> & Ha & Hmid) Hl.
  exists pre, a, mid, line, []. repeat split; try assumption.
  - rewrite <- app_assoc. reflexivity.
  - constructor.
Qed.

(** Only an anchor line assigns the pending drag-start, and nothing
    ever clears it. *)
Lemma start_coords_kept (st st' : scan) (line : str) :
  scan_line st line = Ok st' -> anchors line = false ->
  start_coords st' = start_coords st.
Proof.
  unfold scan_line, anchors.
  destruct (shape_of line) as [f a|a|a|a|a|a|]; intros H Hl; try discriminate.
  - destruct (_parse_coords a); cbn in H; [|discriminate].
    injection H as <-. reflexivity.
  - destruct (py_int _); cbn in H; [|discriminate].
    destruct (_parse_coords a); cbn in H; [|discriminate].
    injection H as <-. reflexivity.
  - destruct (_parse_coords a); cbn in H; [|discriminate].
    destruct (start_coords st) eqn:E; injection H as <-; cbn; congruence.
  - destruct (search_group1 _ _); cbn in H; [|discriminate].
    injection H as <-. reflexivity.
  - destruct (search_group1 _ _); cbn in H; [|discriminate].
    injection H as <-. reflexivity.
  - injection H as <-. reflexivity.
Qed.

Lemma scan_line_inv (done : list str) (st st' : scan) (line : str) :
  scan_inv done st -> scan_line st line = Ok st' ->
  scan_inv (done ++ [line]) st'.
Proof.
  intros [Hs Hd] H. unfold scan_line in H.
  destruct (shape_of line) as [f a|a|a|a|a|a|] eqn:Sh.
  - (* click *)
    destruct (_parse_coords a); cbn in H; [|discriminate]. injection H as <-.
    split; cbn.
    + intros xy E. apply start_from_snoc; [auto|].
      unfold anchors. rewrite Sh. reflexivity.
    + discriminate.
  - (* scroll *)
    destruct (py_int _); cbn in H; [|discriminate].
    destruct (_parse_coords a); cbn in H; [|discriminate]. injection H as <-.
    split; cbn.
    + intros xy E. apply start_from_snoc; [auto|].
      unfold anchors. rewrite Sh. reflexivity.
    + discriminate.
  - (* anchor *)
    destruct (_parse_coords a) as [xy0|] eqn:Hp; cbn in H; [|discriminate].
    injection H as <-. split; cbn.
    + intros xy E. injection E as <-.
      exists done, line, []. repeat split; [|constructor].
      exists a. auto.
    + intros sx sy ex ey E. split; [|discriminate].
      apply drag_from_snoc; [apply (Hd _ _ _ _ E)|].
      unfold sets_mouse. rewrite Sh. reflexivity.
  - (* drag-to *)
    destruct (_parse_coords a) as [xy0|] eqn:Hp; cbn in H; [|discriminate].
    destruct (start_coords st) as [start|] eqn:E0.
    + injection H as <-. split; cbn.
      * intros xy E. apply start_from_snoc; [apply Hs; congruence|].
        unfold anchors. rewrite Sh. reflexivity.
      * intros sx sy ex ey E. injection E as <- <- <- <-.
        split; [|congruence].
        destruct start as [sx sy], xy0 as [ex ey]. cbn.
        apply drag_from_start; [auto|]. exists a. auto.
    + injection H as <-. split.
      * intros xy E. congruence.
      * intros sx sy ex ey E. destruct (Hd _ _ _ _ E) as [_ Hn]. contradiction.
  - (* write *)
    destruct (search_group1 _ _); cbn in H; [|discriminate]. injection H as <-.
    split; cbn.
    + intros xy E. apply start_from_snoc; [auto|].
      unfold anchors. rewrite Sh. reflexivity.
    + intros sx sy ex ey E. destruct (Hd _ _ _ _ E) as [Hf Hn].
      split; [|exact Hn]. apply drag_from_snoc; [exact Hf|].
      unfold sets_mouse. rewrite Sh. reflexivity.
  - (* press *)
    destruct (search_group1 _ _); cbn in H; [|discriminate]. injection H as <-.
    split; cbn.
    + intros xy E. apply start_from_snoc; [auto|].
      unfold anchors. rewrite Sh. reflexivity.
    + intros sx sy ex ey E. destruct (Hd _ _ _ _ E) as [Hf Hn].
      split; [|exact Hn]. apply drag_from_snoc; [exact Hf|].
      unfold sets_mouse. rewrite Sh. reflexivity.
  - (* other *)
    injection H as <-. split.
    + intros xy E. apply start_from_snoc; [auto|].
      unfold anchors. rewrite Sh. reflexivity.
    + intros sx sy ex ey E. destruct (Hd _ _ _ _ E) as [Hf Hn].
      split; [|exact Hn]. apply drag_from_snoc; [exact Hf|].
      unfold sets_mouse. rewrite Sh. reflexivity.
Qed.

Lemma scan_lines_inv (rest done : list str) (st st' : scan) :
  scan_inv done st -> scan_lines st rest = Ok st' ->
  scan_inv (done ++ rest) st'.
Proof.
  revert done st. induction rest as [|l rest IH]; intros done st Hinv H.
  - cbn in H. injection H as <-. rewrite app_nil_r. exact Hinv.
  - cbn in H. destruct (scan_line st l) as [st1|] eqn:E; [|discriminate].
    cbn in H. replace (done ++ l :: rest) with ((done ++ [l]) ++ rest)
      by (rewrite <- app_assoc; reflexivity).
    apply (IH _ st1); [|exact H].
    eapply scan_line_inv; eassumption.
Qed.

Lemma scan_inv0 : scan_inv [] scan0.
Proof. split; cbn; discriminate. Qed.

(** C3 (as amended): a drag record is emitted only while a drag-start
    is pending; its start comes from the latest anchor line before the
    drag-to line that made it, in the same code block, whatever lines
    stand between the two; and the pending pair is never consumed: a
    line that is not an anchor leaves it as it was. *)
Theorem drag_start_is_latest_anchor :
  (forall code sx sy ex ey k,
     build_actions code = Ok (Some (Drag sx sy ex ey), k) ->
     drag_from (code_lines code) (sx, sy) (ex, ey))
  /\ (forall st line st',
        scan_line st line = Ok st' -> anchors line = false ->
        start_coords st' = start_coords st).
Proof.
  split; [|intros; eapply start_coords_kept; eassumption].
  intros code sx sy ex ey k H. unfold build_actions in H.
  destruct (scan_lines scan0 (code_lines code)) as [st|] eqn:E; [|discriminate].
  cbn in H. injection H as Hm _.
  eapply scan_lines_inv in E; [|exact scan_inv0]. cbn in E.
  destruct E as [_ Hd]. apply (Hd _ _ _ _ Hm).
Qed.

Lemma drag_start_is_latest_anchor_witness :
  build_actions move_drag_drag
  = Ok (Some (Drag (Some 192) (Some 216) (Some 960) (Some 648)), None)
  /\ drag_from (code_lines move_drag_drag)
               (Some 192, Some 216) (Some 960, Some 648).
Proof.
  assert (H : build_actions move_drag_drag
              = Ok (Some (Drag (Some 192) (Some 216) (Some 960) (Some 648)), None))
    by (vm_compute; reflexivity).
  split; [exact H|].
  exact (proj1 drag_start_is_latest_anchor move_drag_drag _ _ _ _ _ H).
Defined.

(** C3 (as stated) fails: with a [press] line between the [moveTo] line
    and the [dragTo] line the drag record is still emitted, though no
    anchor line stands right before the drag-to line. *)
Lemma drag_start_across_lines : ~ drag_start_directly_before move_press_drag.
Proof.
  intros H.
  destruct (H (Some 192) (Some 216) (Some 576) (Some 432) (Some (Press "a")))
    as (pre & a & d & post & E & Ha & Hd); [vm_compute; reflexivity|].
  assert (L : code_lines move_press_drag
              = [of_string "pyautogui.moveTo(0.1, 0.2)";
                 of_string "pyautogui.press('a')";
                 of_string "pyautogui.dragTo(0.3, 0.4)"])
    by (vm_compute; reflexivity).
  rewrite L in E. clear L H.
  destruct pre as [|l1 pre]; cbn in E.
  - injection E as <- <- _. destruct Hd as (args & Hs & _).
    vm_compute in Hs. discriminate.
  - injection E as _ E. destruct pre as [|l2 pre]; cbn in E.
    + injection E as <- _. destruct Ha as (args & Hs & _).
      vm_compute in Hs. discriminate.
    + injection E as _ E. destruct pre as [|l3 pre]; cbn in E.
      * discriminate.
      * injection E as _ E. destruct pre; discriminate.
Qed.

(** ** The scroll example *)


(** ** The instruction of a task *)

Lemma process_task_steps (task_id : str) (cfg : option json) (traj : list row)
      (t : Task) :
  process_task task_id cfg traj = Ok t ->
  process_rows task_id traj = Ok (steps t).
Proof.
  unfold process_task.
  destruct (match cfg with Some c => read_instruction c | None => Ok (JStr []) end);
    cbn; [|discriminate].
  destruct (process_rows task_id traj); cbn; [|discriminate].
  intros H. injection H as <-. reflexivity.
Qed.

(** C9 (as amended): a non-empty [instruction] string of the
    configuration is the Task's instruction, whatever [prompt] holds;
    when [instruction] is absent or empty the Task gets the trimmed
    [prompt]; without a configuration file it gets the empty string. *)
Theorem instruction_from_config :
  forall task_id traj sts,
    process_rows task_id traj = Ok sts ->
    (forall d s,
        dict_get "instruction" d = Some (JStr s) -> s <> [] ->
        process_task task_id (Some (JObj d)) traj
        = Ok (MkTask task_id sts (JStr s)))
    /\ (forall d p,
           dict_get "instruction" d = None
           \/ dict_get "instruction" d = Some (JStr []) ->
           dict_get "prompt" d = Some (JStr p) ->
           process_task task_id (Some (JObj d)) traj
           = Ok (MkTask task_id sts (JStr (strip p))))
    /\ process_task task_id None traj = Ok (MkTask task_id sts (JStr [])).
Proof.
  intros task_id traj sts Hrows. unfold process_task, read_instruction.
  repeat split.
  - intros d s Hi Hs. rewrite Hi. cbn [truthy].
    destruct s as [|a s]; [contradiction|]. cbn. rewrite Hrows. reflexivity.
  - intros d p [Hi|Hi] Hp; rewrite Hi, ?Hp; cbn; rewrite ?Hp; cbn;
      rewrite Hrows; reflexivity.
  - cbn. rewrite Hrows. reflexivity.
Qed.

Lemma instruction_from_config_witness :
  process_rows "task1" [] = Ok []
  /\ process_task "task1"
       (Some (JObj [(of_string "instruction", JStr "Open the file");
                    (of_string "prompt", JStr " unused ")])) []
     = Ok (MkTask "task1" [] (JStr "Open the file")).
Proof.
  assert (H : process_rows "task1" [] = Ok []) by reflexivity.
  split; [exact H|].
  apply (proj1 (instruction_from_config "task1" [] [] H)).
  - reflexivity.
  - discriminate.
Defined.

(** C9 (as stated) fails: an empty [instruction] string is supplied,
    yet the Task's instruction is the trimmed [prompt]. *)
Lemma empty_instruction_falls_back : ~ instruction_is_configured empty_instruction.
Proof.
  intros H.
  specialize (H [] (of_string "t") []
                (MkTask "t" [] (JStr "open the file")) eq_refl).
  cbn in H. specialize (H eq_refl). discriminate.
Qed.

(** ** The termination sentinel *)

Lemma process_row_rule (task_id : str) (r : row) (s : Step) :
  process_row task_id r = Ok s -> terminate_rule r s.
Proof.
  unfold process_row, terminate_rule.
  destruct (extract_sections (response r)) as [[th a] c].
  destruct (build_actions c); cbn; [|discriminate].
  intros H. injection H as <-. cbn. auto.
Qed.

Lemma process_rows_rule (task_id : str) (rows : list row) (sts : list Step) :
  process_rows task_id rows = Ok sts -> Forall2 terminate_rule rows sts.
Proof.
  revert sts. induction rows as [|r rows IH]; intros sts; cbn [process_rows].
  - intros H. injection H as <-. constructor.
  - destruct (process_row task_id r) as [s|] eqn:E; cbn [bind]; [|discriminate].
    destruct (process_rows task_id rows) as [sts'|]; cbn [bind]; [|discriminate].
    intros H. injection H as <-. constructor; [|auto].
    eapply process_row_rule; eassumption.
Qed.

(** C6: in an emitted Task every step whose code segment contains
    the call [computer.terminate] has the action description DONE,
    whatever the Action header held; the other steps keep the text
    of the header. *)
Theorem terminate_sets_done :
  forall task_id cfg traj t,
    process_task task_id cfg traj = Ok t ->
    Forall2 terminate_rule traj (steps t)
    /\ Forall (fun s => contains "computer.terminate" (code_block s) = true ->
                        action s = "DONE") (steps t).
Proof.
  intros task_id cfg traj t H. apply process_task_steps in H.
  apply process_rows_rule in H. split; [exact H|].
  induction H as [|r s rows sts Hrs _ IH]; constructor; [|exact IH].
  unfold terminate_rule in Hrs.
  destruct (extract_sections (response r)) as [[th a] c].
  destruct Hrs as [Hc Ha]. intros Ht. rewrite Ha, <- Hc, Ht. reflexivity.
Qed.

Lemma terminate_sets_done_witness :
  process_task "task1" None terminate_traj = Ok terminate_task
  /\ Forall2 terminate_rule terminate_traj (steps terminate_task)
  /\ Forall (fun s => contains "computer.terminate" (code_block s) = true ->
                      action s = "DONE") (steps terminate_task).
Proof.
  assert (E : process_task "task1" None terminate_traj = Ok terminate_task)
    by (vm_compute; reflexivity).
  split; [exact E|].
  exact (terminate_sets_done "task1" None terminate_traj terminate_task E).
Defined.

(** ** Coordinate scaling *)







(** ** Text entry *)








(** ** Positional scroll coordinates *)

Lemma num_char_facts (a : ascii) :
  num_char a = true ->
  not_rparen a = true /\ is_space a = false /\ Ascii.eqb "x" a = false
  /\ Ascii.eqb a "," = false.
Proof.
  revert a.
  assert (H : forall a, (negb (num_char a) || (not_rparen a && negb (is_space a) && negb (Ascii.eqb "x" a) && negb (Ascii.eqb a ","))) = true).
  { apply ascii_all. vm_compute. reflexivity. }
  intros a Ha. specialize (H a). rewrite Ha in H.
  destruct (not_rparen a), (is_space a), (Ascii.eqb "x" a), (Ascii.eqb a ",");
    try discriminate; repeat split.
Qed.

Lemma digit_num_char (a : ascii) : is_digit a = true -> num_char a = true.
Proof. intros H. unfold num_char. rewrite H. destruct (is_sign a); reflexivity. Qed.

Lemma signed_num_chars (s : str) : signed s -> forallb num_char s = true.
Proof. intros [->|[->| ->]]; reflexivity. Qed.

Lemma int_literal_chars (n : str) : int_literal n -> forallb num_char n = true.
Proof.
  intros (s & d & -> & Hs & _ & Hd). rewrite forallb_app.
  rewrite (signed_num_chars s Hs). cbn.
  apply (forallb_impl is_digit num_char d digit_num_char Hd).
Qed.

Lemma decimal_literal_chars (c : str) :
  decimal_literal c -> forallb num_char c = true.
Proof.
  intros [H|(s & i & f & -> & Hs & Hi & _ & Hf)]; [apply int_literal_chars; exact H|].
  rewrite !forallb_app. cbn [forallb]. rewrite (signed_num_chars s Hs).
  rewrite (forallb_impl is_digit num_char i digit_num_char Hi).
  rewrite (forallb_impl is_digit num_char f digit_num_char Hf). reflexivity.
Qed.

Lemma decimal_literal_cons (c : str) :
  decimal_literal c -> exists a c', c = a :: c'.
Proof.
  intros [(s & d & -> & Hs & Hd & _)|(s & i & f & -> & Hs & _)].
  - destruct Hs as [->|[->| ->]]; cbn; eauto.
    destruct d; [contradiction|eauto].
  - destruct Hs as [->|[->| ->]]; cbn; eauto.
    destruct i; cbn; eauto.
Qed.

(** The sign of the number pattern takes the sign of the literal. *)
Lemma sign_match (s body : str) (g : caps) (k : str -> caps -> option caps)
      (r : caps) :
  signed s -> (s = [] -> stops is_sign body) ->
  k body g = Some r ->
  matchk (Opt (Cls is_sign)) (s ++ body) g k = Some r.
Proof.
  intros [->|[->| ->]] Hb Hk; unfold Opt; cbn [matchk app].
  - specialize (Hb eq_refl). destruct body as [|a body]; [exact Hk|].
    cbn in Hb. rewrite Hb. exact Hk.
  - unfold of_string. cbn [list_ascii_of_string app].
    replace (is_sign "-") with true by reflexivity. rewrite Hk. reflexivity.
  - unfold of_string. cbn [list_ascii_of_string app].
    replace (is_sign "+") with true by reflexivity. rewrite Hk. reflexivity.
Qed.

(** Digits up to a point and digits after it. *)
Lemma fraction_match (i f rest : str) (g : caps)
      (k : str -> caps -> option caps) (r : caps) :
  forallb is_digit i = true -> digits f -> stops is_digit rest ->
  k rest g = Some r ->
  matchk (Seq (Star true is_digit) (Seq (Opt (Lit ".")) (Plus true is_digit)))
         (i ++ "."%char :: f ++ rest) g k = Some r.
Proof.
  intros Hi [Hne Hf] Hrest Hk. unfold Opt, Plus. cbn [matchk].
  apply rep_greedy_run; [exact Hi|reflexivity|].
  change (strip_prefix "." ("."%char :: f ++ rest)) with (Some (f ++ rest)).
  destruct f as [|a f]; [contradiction|]. cbn [app].
  cbn [forallb] in Hf. apply andb_prop in Hf as [Ha Hf]. rewrite Ha.
  erewrite rep_greedy_run; [reflexivity|exact Hf|exact Hrest|exact Hk].
Qed.

(** Digits alone: the star gives its last digit back to the plus. *)
Lemma integer_match (d rest : str) (g : caps)
      (k : str -> caps -> option caps) (r : caps) :
  digits d -> ends_number rest ->
  k rest g = Some r ->
  matchk (Seq (Star true is_digit) (Seq (Opt (Lit ".")) (Plus true is_digit)))
         (d ++ rest) g k = Some r.
Proof.
  intros [Hne Hd] Hrest Hk. unfold Opt, Plus. cbn [matchk].
  destruct (exists_last Hne) as (d' & a & ->).
  rewrite forallb_app in Hd. apply andb_prop in Hd as [Hd' Ha].
  cbn in Ha. rewrite andb_true_r in Ha.
  rewrite <- app_assoc. cbn [app].
  apply rep_greedy_inner; [exact Hd'|].
  assert (Hstop : stops is_digit rest).
  { destruct rest as [|b rest]; [exact I|]. apply Hrest. }
  cbn [rep_greedy]. rewrite Ha.
  rewrite rep_greedy_stop by exact Hstop.
  assert (E1 : strip_prefix "." rest = None).
  { destruct rest as [|b rest]; [reflexivity|]. destruct Hrest as [_ Hb].
    unfold of_string. cbn [list_ascii_of_string strip_prefix].
    destruct (Ascii.eqb_spec "." b) as [<-|_]; [contradiction|reflexivity]. }
  assert (E2 : match rest with
               | [] => None
               | a :: s' => if is_digit a then rep_greedy is_digit (fun s'0 : str => k s'0 g) s' else @None caps end = None).
  { destruct rest as [|b rest]; [reflexivity|]. destruct Hrest as [Hb _].
    rewrite Hb. reflexivity. }
  rewrite E1, E2.
  assert (E3 : strip_prefix "." (a :: rest) = None).
  { unfold of_string. cbn [list_ascii_of_string strip_prefix].
    destruct (Ascii.eqb_spec "." a) as [<-|_]; [discriminate|reflexivity]. }
  rewrite E3. rewrite rep_greedy_stop by exact Hstop. exact Hk.
Qed.

Lemma digit_not_sign (a : ascii) : is_digit a = true -> is_sign a = false.
Proof.
  assert (H : forall b, negb (is_digit b) || negb (is_sign b) = true)
    by (apply ascii_all; vm_compute; reflexivity).
  intros Ha. specialize (H a). rewrite Ha in H.
  destruct (is_sign a); [discriminate|reflexivity].
Qed.

Lemma number_match (n : nat) (c rest : str) (g : caps)
      (k : str -> caps -> option caps) (r : caps) :
  decimal_literal c -> ends_number rest ->
  k rest ((n, c) :: g) = Some r ->
  matchk (number n) (c ++ rest) g k = Some r.
Proof.
  intros Hc Hrest Hk. unfold number.
  set (body := Seq (Star true is_digit) (Seq (Opt (Lit ".")) (Plus true is_digit))).
  change (matchk (Opt (Cls is_sign)) (c ++ rest) g
            (fun s' g' => matchk body s' g'
               (fun s'' g'' => k s'' ((n, consumed (c ++ rest) s'') :: g'')))
          = Some r).
  assert (Hend : k rest ((n, consumed (c ++ rest) rest) :: g) = Some r)
    by (rewrite consumed_app; exact Hk).
  assert (Hstop : stops is_digit rest).
  { destruct rest as [|b rest]; [exact I|]. apply Hrest. }
  destruct Hc as [(s & d & E & Hs & Hd)|(s & i & f & E & Hs & Hi & Hf)].
  - revert Hend. rewrite E, <- app_assoc. intros Hend.
    apply sign_match; [exact Hs| |].
    + intros _. destruct Hd as [Hne Hd]. destruct d as [|a d]; [contradiction|].
      cbn in Hd |- *. apply andb_prop in Hd as [Ha _].
      apply digit_not_sign. exact Ha.
    + unfold body. apply integer_match; assumption.
  - revert Hend. rewrite E, <- !app_assoc. cbn [app]. intros Hend.
    apply sign_match; [exact Hs| |].
    + intros _. destruct i as [|a i]; [reflexivity|].
      cbn in Hi |- *. apply andb_prop in Hi as [Ha _].
      apply digit_not_sign. exact Ha.
    + unfold body. apply fraction_match; assumption.
Qed.

Lemma named_coord_none (s : str) :
  forallb (fun b => negb (Ascii.eqb "x" b)) s = true ->
  re_search NAMED_COORD s = None.
Proof.
  induction s as [|b s IH]; [reflexivity|].
  cbn [forallb]. intros H. apply andb_prop in H as [Hb Hs].
  cbn [re_search]. rewrite (IH Hs).
  unfold re_match, NAMED_COORD. cbn [matchk].
  unfold of_string at 1. cbn [list_ascii_of_string strip_prefix].
  destruct (Ascii.eqb "x" b); [discriminate|reflexivity].
Qed.

Lemma decimal_stops_space (c rest : str) :
  decimal_literal c -> stops is_space (c ++ rest).
Proof.
  intros Hc. pose proof (decimal_literal_chars c Hc) as Hch.
  destruct (decimal_literal_cons c Hc) as (a & c' & ->).
  cbn in Hch |- *. apply andb_prop in Hch as [Ha _].
  apply (num_char_facts a Ha).
Qed.

(** Two literals with a comma and a blank between them. *)
Lemma coord_pair_match (n c tail : str) :
  decimal_literal n -> decimal_literal c -> ends_number tail ->
  re_match COORD_PAIR (n ++ of_string ", " ++ c ++ tail)
  = Some [(2%nat, c); (1%nat, n)].
Proof.
  intros Hn Hc Ht. unfold re_match, COORD_PAIR.
  change (matchk (number 1) (n ++ of_string ", " ++ c ++ tail) []
            (fun s' g' => matchk (Seq ws (Seq (Lit ",") (Seq ws (number 2)))) s' g'
                            (fun _ g => Some g))
          = Some [(2%nat, c); (1%nat, n)]).
  apply number_match; [exact Hn|split; [reflexivity|discriminate]|].
  unfold ws. cbn [matchk].
  change (of_string ", " ++ c ++ tail) with (","%char :: [" "%char] ++ c ++ tail).
  rewrite rep_greedy_stop by reflexivity.
  change (strip_prefix "," (","%char :: [" "%char] ++ c ++ tail))
    with (Some ([" "%char] ++ c ++ tail)).
  cbv beta iota.
  apply rep_greedy_run; [reflexivity|apply decimal_stops_space; exact Hc|].
  apply (number_match 2 c tail [(1%nat, n)] (fun _ g => Some g)); auto.
Qed.

Lemma shape_scroll (args rest : str) :
  forallb not_rparen args = true ->
  shape_of (of_string "pyautogui." ++ of_string "scroll" ++ of_string "("
              ++ args ++ of_string ")" ++ rest)
  = IsScroll args.
Proof.
  intros Ha. unfold shape_of, re_match.
  unfold click_re, scroll_re, anchor_re, dragto_re, write_re, press_re, call.
  cbn [matchk]. rewrite !strip_prefix_app.
  repeat lit_fail. cbv beta iota.
  erewrite rep_greedy_run;
    [|exact Ha|reflexivity|rewrite strip_prefix_app; reflexivity].
  cbn [group Nat.eqb]. rewrite consumed_app. reflexivity.
Qed.

Lemma parse_coords_positional (n c tail : str) :
  decimal_literal n -> decimal_literal c -> ends_number tail ->
  forallb (fun b => negb (Ascii.eqb "x" b)) tail = true ->
  _parse_coords (n ++ of_string ", " ++ c ++ tail)
  = (fx <- py_float n ;; x <- scale 1920 fx ;;
     fy <- py_float c ;; y <- scale 1080 fy ;; Ok (Some x, Some y)).
Proof.
  intros Hn Hc Ht Hx. unfold _parse_coords.
  rewrite named_coord_none.
  - rewrite (re_search_here _ _ _ (coord_pair_match n c tail Hn Hc Ht)).
    reflexivity.
  - rewrite !forallb_app, Hx. cbn [forallb of_string list_ascii_of_string].
    rewrite (forallb_impl num_char _ n), (forallb_impl num_char _ c);
      [reflexivity| | | |]; try (apply decimal_literal_chars; assumption);
      intros a Ha; destruct (num_char_facts a Ha) as (_ & _ & -> & _); reflexivity.
Qed.

Lemma num_chars_all (P : ascii -> bool) (c : str) :
  (forall a, num_char a = true -> P a = true) ->
  decimal_literal c -> forallb P c = true.
Proof.
  intros HP Hc. apply (forallb_impl num_char P c HP).
  apply decimal_literal_chars. exact Hc.
Qed.



(** ** The sections of a response *)

Lemma space_not_hash_tick (a : ascii) :
  is_space a = true -> not_hash_tick a = true.
Proof.
  assert (H : forall b, negb (is_space b) || not_hash_tick b = true)
    by (apply ascii_all; vm_compute; reflexivity).
  intros Ha. specialize (H a). rewrite Ha in H. exact H.
Qed.

Lemma not_hash_tick_not_tick (a : ascii) :
  not_hash_tick a = true -> not_tick a = true.
Proof.
  unfold not_hash_tick, not_tick.
  destruct (Ascii.eqb a "#"), (Ascii.eqb a "`"); cbn; congruence.
Qed.

Lemma header_tail_match (T R : str) :
  T <> [] -> forallb not_hash_tick T = true -> stops not_hash_tick R ->
  exists g, matchk header_tail (LF ++ T ++ R) [] (fun _ g' => Some g')
            = Some [(1%nat, g)]
            /\ strip g = strip T.
Proof.
  intros Hne HT HR. unfold header_tail, ws, Plus. cbn [matchk].
  match goal with
  | |- exists g, rep_greedy is_space ?K _ = _ /\ _ => set (k := K)
  end.
  destruct (rep_greedy is_space k (LF ++ T ++ R)) as [r|] eqn:E.
  - apply rep_greedy_sound in E as (p & s' & Es & Hp & Hk).
    unfold k in Hk. cbv beta in Hk.
    destruct (strip_prefix LF s') as [s1|] eqn:E1; [|discriminate].
    apply strip_prefix_Some in E1. subst s'.
    destruct s1 as [|a s1]; [discriminate|].
    destruct (not_hash_tick a) eqn:Ha; [|discriminate].
    destruct (rep_greedy_longest not_hash_tick
                (fun s'2 => Some [(1%nat, consumed (a :: s1) s'2)]) s1)
      as (p3 & s3 & -> & Hp3 & Hs3 & E3); [discriminate|].
    pose proof (eq_trans (eq_sym Hk) E3) as Hr. injection Hr as ->.
    exists (a :: p3).
    split; [do 3 f_equal; exact (consumed_app (a :: p3) s3)|].
    assert (Hrun : LF ++ T = p ++ LF ++ a :: p3 /\ R = s3).
    { apply (run_unique not_hash_tick).
      - cbn. exact HT.
      - rewrite forallb_app. cbn. rewrite Ha, Hp3.
        rewrite (forallb_impl is_space not_hash_tick p space_not_hash_tick Hp).
        reflexivity.
      - exact HR.
      - exact Hs3.
      - rewrite <- !app_assoc. exact Es. }
    destruct Hrun as [Hrun _].
    destruct p as [|b p].
    + cbn in Hrun. injection Hrun as ->. reflexivity.
    + cbn in Hrun. injection Hrun as _ ->. cbn in Hp.
      apply andb_prop in Hp as [_ Hp].
      replace (p ++ "010"%char :: a :: p3) with ((p ++ LF) ++ a :: p3)
        by (rewrite <- app_assoc; reflexivity).
      symmetry. apply strip_app_space.
      rewrite forallb_app, Hp. reflexivity.
  - exfalso. revert E.
    apply (rep_greedy_complete is_space k [] (LF ++ T ++ R)); [reflexivity|].
    unfold k. rewrite strip_prefix_app.
    destruct T as [|a T]; [contradiction|]. cbn [app].
    cbn in HT. apply andb_prop in HT as [Ha HT]. rewrite Ha.
    apply (rep_greedy_complete not_hash_tick _ [] (T ++ R)); [reflexivity|].
    destruct (T ++ R); discriminate.
Qed.

(** A header: the marker, blanks, the word, and the tail. *)
Lemma header_match (name T R : str) :
  name <> [] -> stops is_space name ->
  T <> [] -> forallb not_hash_tick T = true -> stops not_hash_tick R ->
  exists g,
    re_match (Seq (Lit "##") (Seq ws (Seq (Lit name) header_tail)))
             (of_string "##" ++ " "%char :: name ++ LF ++ T ++ R)
    = Some [(1%nat, g)]
    /\ strip g = strip T.
Proof.
  intros Hn Hname Hne HT HR.
  destruct (header_tail_match T R Hne HT HR) as (g & Hg & Hs).
  exists g. split; [|exact Hs].
  unfold re_match. cbn [matchk]. rewrite strip_prefix_app.
  unfold ws at 1. cbn [matchk].
  apply (rep_greedy_run is_space _ [" "%char]); [reflexivity| |].
  - destruct name; [contradiction|exact Hname].
  - rewrite strip_prefix_app. exact Hg.
Qed.

Lemma space_not_tick (a : ascii) : is_space a = true -> not_tick a = true.
Proof.
  intros H. apply not_hash_tick_not_tick, space_not_hash_tick. exact H.
Qed.

Lemma fence_tail_match (C post : str) :
  C <> [] -> forallb not_tick C = true ->
  exists g, matchk fence_tail (C ++ of_string "```" ++ post) []
                   (fun _ g' => Some g')
            = Some [(1%nat, g)]
            /\ strip g = strip C.
Proof.
  intros Hne HC. unfold fence_tail, ws, Plus. cbn [matchk].
  match goal with
  | |- exists g, rep_greedy is_space ?K _ = _ /\ _ => set (k := K)
  end.
  destruct (rep_greedy is_space k (C ++ of_string "```" ++ post)) as [r|] eqn:E.
  - apply rep_greedy_sound in E as (p & s' & Es & Hp & Hk).
    unfold k in Hk. cbv beta in Hk.
    destruct s' as [|a s1]; [discriminate|].
    destruct (not_tick a) eqn:Ha; [|discriminate].
    apply rep_lazy_sound in Hk as (p2 & s2 & -> & Hp2 & Hk).
    destruct (strip_prefix "```" s2) as [s3|] eqn:E3; [|discriminate].
    apply strip_prefix_Some in E3. subst s2. injection Hk as <-.
    exists (a :: p2).
    split; [do 3 f_equal; exact (consumed_app (a :: p2) (of_string "```" ++ s3))|].
    assert (Hrun : C = p ++ a :: p2
                   /\ of_string "```" ++ post = of_string "```" ++ s3).
    { apply (run_unique not_tick).
      - exact HC.
      - rewrite forallb_app. cbn. rewrite Ha, Hp2.
        rewrite (forallb_impl is_space not_tick p space_not_tick Hp).
        reflexivity.
      - reflexivity.
      - reflexivity.
      - rewrite <- !app_assoc. exact Es. }
    destruct Hrun as [-> _]. symmetry. apply strip_app_space. exact Hp.
  - exfalso. revert E.
    apply (rep_greedy_complete is_space k [] (C ++ of_string "```" ++ post));
      [reflexivity|].
    unfold k. destruct C as [|a C]; [contradiction|]. cbn [app].
    cbn in HC. apply andb_prop in HC as [Ha HC]. rewrite Ha.
    apply (rep_lazy_complete not_tick _ C (of_string "```" ++ post)); [exact HC|].
    rewrite strip_prefix_app. discriminate.
Qed.

Lemma fence_match (tag C post : str) :
  plain_fence tag C -> C <> [] -> forallb not_tick C = true ->
  exists g,
    re_match CODE_RE (of_string "```" ++ tag ++ C ++ of_string "```" ++ post)
    = Some [(1%nat, g)]
    /\ strip g = strip C.
Proof.
  intros Htag Hne HC.
  destruct (fence_tail_match C post Hne HC) as (g & Hg & Hs).
  exists g. split; [|exact Hs].
  unfold re_match.
  change CODE_RE
    with (Seq (Lit "```") (Seq (Opt (Alt (Lit "python") (Lit "code"))) fence_tail)).
  unfold Opt. cbn [matchk]. rewrite strip_prefix_app.
  destruct Htag as [->|[->|(-> & Hp & Hc)]].
  - rewrite strip_prefix_app, Hg. reflexivity.
  - lit_fail. rewrite strip_prefix_app, Hg. reflexivity.
  - cbn [app].
    pose proof (strip_prefix_none_app "python" C (of_string "``" ++ post)
                  eq_refl Hp) as Ep.
    pose proof (strip_prefix_none_app "code" C (of_string "``" ++ post)
                  eq_refl Hc) as Ec.
    change (C ++ "`"%char :: of_string "``" ++ post)
      with (C ++ of_string "```" ++ post) in Ep, Ec.
    rewrite Ep, Ec. exact Hg.
Qed.

Lemma no_hash (p : str) :
  forallb not_hash_tick p = true ->
  forallb (fun b => negb (Ascii.eqb "#" b)) p = true.
Proof.
  apply forallb_impl. intros a. unfold not_hash_tick.
  destruct (Ascii.eqb_spec "#" a) as [<-|_]; [discriminate|reflexivity].
Qed.

Lemma no_tick (p : str) :
  forallb not_tick p = true ->
  forallb (fun b => negb (Ascii.eqb "`" b)) p = true.
Proof.
  apply forallb_impl. intros a. unfold not_tick.
  destruct (Ascii.eqb_spec "`" a) as [<-|_]; [discriminate|reflexivity].
Qed.

Lemma thought_skip (p s : str) :
  forallb not_hash_tick p = true ->
  re_search THOUGHT_RE (p ++ s) = re_search THOUGHT_RE s.
Proof. intros H. exact (re_search_skip "#" ["#"%char] _ p s (no_hash p H)). Qed.

Lemma action_skip (p s : str) :
  forallb not_hash_tick p = true ->
  re_search ACTION_RE (p ++ s) = re_search ACTION_RE s.
Proof. intros H. exact (re_search_skip "#" ["#"%char] _ p s (no_hash p H)). Qed.

Lemma code_skip (p s : str) :
  forallb not_tick p = true ->
  re_search CODE_RE (p ++ s) = re_search CODE_RE s.
Proof.
  intros H. exact (re_search_skip "`" (of_string "``") _ p s (no_tick p H)).
Qed.

Lemma thought_found (pre T R : str) :
  forallb not_hash_tick pre = true ->
  T <> [] -> forallb not_hash_tick T = true -> stops not_hash_tick R ->
  exists g,
    re_search THOUGHT_RE (pre ++ of_string "## Thought:" ++ LF ++ T ++ R)
    = Some [(1%nat, g)]
    /\ strip g = strip T.
Proof.
  intros Hpre Hne HT HR.
  destruct (header_match "Thought:" T R) as (g & Hg & Hs);
    [discriminate|reflexivity|assumption..|].
  exists g. split; [|exact Hs].
  rewrite thought_skip by exact Hpre.
  apply re_search_here. exact Hg.
Qed.

Lemma action_found (pre T A R : str) :
  forallb not_hash_tick pre = true -> forallb not_hash_tick T = true ->
  A <> [] -> forallb not_hash_tick A = true -> stops not_hash_tick R ->
  exists g,
    re_search ACTION_RE
      (pre ++ of_string "## Thought:" ++ LF ++ T
           ++ of_string "## Action:" ++ LF ++ A ++ R)
    = Some [(1%nat, g)]
    /\ strip g = strip A.
Proof.
  intros Hpre HT Hne HA HR.
  destruct (header_match "Action:" A R) as (g & Hg & Hs);
    [discriminate|reflexivity|assumption..|].
  exists g. split; [|exact Hs].
  rewrite action_skip by exact Hpre.
  set (rest := of_string "## Action:" ++ LF ++ A ++ R).
  change (of_string "## Thought:" ++ LF ++ T ++ rest)
    with ("#"%char :: "#"%char :: (of_string " Thought:" ++ LF) ++ T ++ rest).
  cbn [re_search].
  replace (re_match ACTION_RE
             ("#"%char :: "#"%char :: (of_string " Thought:" ++ LF) ++ T ++ rest))
    with (@None caps) by reflexivity.
  replace (re_match ACTION_RE
             ("#"%char :: (of_string " Thought:" ++ LF) ++ T ++ rest))
    with (@None caps) by reflexivity.
  rewrite action_skip by reflexivity.
  rewrite action_skip by exact HT.
  apply re_search_here. exact Hg.
Qed.

Lemma code_found (pre T A tag C post : str) :
  forallb not_hash_tick pre = true -> forallb not_hash_tick T = true ->
  forallb not_hash_tick A = true ->
  plain_fence tag C -> C <> [] -> forallb not_tick C = true ->
  exists g,
    re_search CODE_RE (response_of pre T A tag C post) = Some [(1%nat, g)]
    /\ strip g = strip C.
Proof.
  intros Hpre HT HA Htag Hne HC.
  destruct (fence_match tag C post Htag Hne HC) as (g & Hg & Hs).
  exists g. split; [|exact Hs]. unfold response_of.
  rewrite code_skip
    by (apply (forallb_impl not_hash_tick); [apply not_hash_tick_not_tick|exact Hpre]).
  rewrite code_skip by reflexivity.
  rewrite code_skip by reflexivity.
  rewrite code_skip
    by (apply (forallb_impl not_hash_tick); [apply not_hash_tick_not_tick|exact HT]).
  rewrite code_skip by reflexivity.
  rewrite code_skip by reflexivity.
  rewrite code_skip
    by (apply (forallb_impl not_hash_tick); [apply not_hash_tick_not_tick|exact HA]).
  apply re_search_here. exact Hg.
Qed.

(** A header pattern matches only where its word stands. *)
Lemma header_needs_word (name : str) (r : regex) (s : str) (m : caps) :
  re_search (Seq (Lit "##") (Seq ws (Seq (Lit name) r))) s = Some m ->
  contains name s = true.
Proof.
  intros H. apply re_search_sound in H as (p & s' & -> & H).
  apply contains_app_r. unfold re_match, ws in H. cbn [matchk] in H.
  destruct (strip_prefix "##" s') as [s1|] eqn:E1; [|discriminate].
  apply strip_prefix_Some in E1. subst s'. apply contains_app_r.
  apply rep_greedy_sound in H as (p1 & s2 & -> & _ & H).
  apply contains_app_r.
  destruct (strip_prefix name s2) as [s3|] eqn:E3; [|discriminate].
  apply strip_prefix_Some in E3. subst s2. apply contains_here.
Qed.

Lemma header_needs_hashes (r : regex) (s : str) (m : caps) :
  re_search (Seq (Lit "##") r) s = Some m -> contains "##" s = true.
Proof.
  intros H. apply re_search_sound in H as (p & s' & -> & H).
  apply contains_app_r. unfold re_match in H. cbn [matchk] in H.
  destruct (strip_prefix "##" s') as [s1|] eqn:E1; [|discriminate].
  apply strip_prefix_Some in E1. subst s'. apply contains_here.
Qed.

Lemma fence_needs_ticks (s : str) (m : caps) :
  re_search CODE_RE s = Some m -> contains "```" s = true.
Proof.
  intros H. apply re_search_sound in H as (p & s' & -> & H).
  apply contains_app_r. unfold re_match, CODE_RE in H. cbn [matchk] in H.
  destruct (strip_prefix "```" s') as [s1|] eqn:E1; [|discriminate].
  apply strip_prefix_Some in E1. subst s'. apply contains_here.
Qed.

(** C7 (as amended): for a response made of text, a Thought header
    with its text, an Action header with its text and a fenced block,
    where the texts are not empty and hold neither [#] nor a backtick,
    the fence is tagged [python] or [code] (or untagged, its body not
    beginning like a tag) and the body is not empty and holds no
    backtick, [extract_sections] returns the three texts trimmed; and
    a response without the marker or the word of a header, or without
    a fence, gets the empty string for that field. *)
Theorem sections_of_plain_response :
  (forall pre T A tag C post,
      forallb not_hash_tick pre = true ->
      T <> [] -> forallb not_hash_tick T = true ->
      A <> [] -> forallb not_hash_tick A = true ->
      plain_fence tag C -> C <> [] -> forallb not_tick C = true ->
      extract_sections (response_of pre T A tag C post)
      = (strip T, strip A, strip C))
  /\ (forall resp,
        (contains "##" resp = false \/ contains "Thought:" resp = false ->
         fst (fst (extract_sections resp)) = [])
        /\ (contains "##" resp = false \/ contains "Action:" resp = false ->
            snd (fst (extract_sections resp)) = [])
        /\ (contains "```" resp = false ->
            snd (extract_sections resp) = [])).
Proof.
  split.
  - intros pre T A tag C post Hpre HT1 HT HA1 HA Htag HC1 HC.
    unfold extract_sections.
    destruct (code_found pre T A tag C post Hpre HT HA Htag HC1 HC)
      as (gc & Ec & Sc).
    rewrite Ec. unfold response_of.
    destruct (thought_found pre T
                (of_string "## Action:" ++ LF ++ A ++ of_string "```" ++ tag
                   ++ C ++ of_string "```" ++ post) Hpre HT1 HT eq_refl)
      as (gt & Et & St).
    destruct (action_found pre T A
                (of_string "```" ++ tag ++ C ++ of_string "```" ++ post)
                Hpre HT HA1 HA eq_refl)
      as (ga & Ea & Sa).
    rewrite Et, Ea. cbn [group Nat.eqb]. rewrite St, Sa, Sc. reflexivity.
  - intros resp. unfold extract_sections. cbn [fst snd]. repeat split; intros H.
    + destruct (re_search THOUGHT_RE resp) as [m|] eqn:E; [|reflexivity].
      pose proof (header_needs_hashes _ _ _ E).
      apply (header_needs_word "Thought:") in E. destruct H; congruence.
    + destruct (re_search ACTION_RE resp) as [m|] eqn:E; [|reflexivity].
      pose proof (header_needs_hashes _ _ _ E).
      apply (header_needs_word "Action:") in E. destruct H; congruence.
    + destruct (re_search CODE_RE resp) as [m|] eqn:E; [|reflexivity].
      apply fence_needs_ticks in E. congruence.
Qed.

Lemma sections_of_plain_response_witness :
  extract_sections (response_of [] plain_thought plain_action "python"
                                issue_code "Done.")
  = (strip plain_thought, strip plain_action, strip issue_code).
Proof.
  apply (proj1 sections_of_plain_response).
  - reflexivity.
  - discriminate.
  - reflexivity.
  - discriminate.
  - reflexivity.
  - left. reflexivity.
  - discriminate.
  - reflexivity.
Defined.

(** C7 (as stated) fails: a Thought text with a [#] inside, and no
    header marker or fence, is cut at the [#]. *)
Lemma hash_cuts_thought :
  ~ sections_enclosed issue_thought issue_action issue_code.
Proof.
  intros H. unfold sections_enclosed in H.
  specialize (H eq_refl eq_refl eq_refl eq_refl eq_refl).
  vm_compute in H. discriminate.
Qed.

(** ** What coordinate parsing can raise *)

Lemma is_sign_signed (a : ascii) : is_sign a = true -> signed [a].
Proof.
  unfold is_sign, signed. intros H. apply orb_prop in H as [H|H];
    apply Ascii.eqb_eq in H; subst a; auto.
Qed.

Lemma number_sound (n : nat) (s : str) (g : caps)
      (k : str -> caps -> option caps) (m : caps) :
  matchk (number n) s g k = Some m ->
  exists c s', s = c ++ s' /\ number_text c /\ k s' ((n, c) :: g) = Some m.
Proof.
  unfold number, Opt, Plus. cbn [matchk].
  set (K := fun s' : str => k s' ((n, consumed s s') :: g)).
  assert (Hbody : forall sg s0, s = sg ++ s0 -> signed sg ->
            rep_greedy is_digit
              (fun s' =>
                 match
                   match strip_prefix "." s' with
                   | Some (a :: s'1) =>
                       if is_digit a then rep_greedy is_digit K s'1 else None
                   | _ => None
                   end
                 with
                 | Some m0 => Some m0
                 | None =>
                     match s' with
                     | [] => None
                     | a :: s'0 =>
                         if is_digit a then rep_greedy is_digit K s'0 else None
                     end
                 end) s0 = Some m ->
            exists c s', s = c ++ s' /\ number_text c
                         /\ k s' ((n, c) :: g) = Some m).
  { intros sg s0 Es Hsg H.
    apply rep_greedy_sound in H as (i & s1 & -> & Hi & H).
    assert (Hplus : forall d s2, s1 = d ++ s2 -> d = [] \/ d = of_string "." ->
              match s2 with
              | [] => None
              | a :: s3 => if is_digit a then rep_greedy is_digit K s3 else None
              end = Some m ->
              exists c s', s = c ++ s' /\ number_text c
                           /\ k s' ((n, c) :: g) = Some m).
    { intros d s2 -> Hd H2. destruct s2 as [|a s3]; [discriminate|].
      destruct (is_digit a) eqn:Ha; [|discriminate].
      apply rep_greedy_sound in H2 as (p & s4 & -> & Hp & H2).
      exists (sg ++ i ++ d ++ a :: p), s4. split; [|split].
      - rewrite Es, <- !app_assoc. reflexivity.
      - exists sg, i, d, (a :: p). repeat split; try assumption.
        + discriminate.
        + cbn. rewrite Ha, Hp. reflexivity.
      - unfold K in H2.
        assert (Ec : consumed s s4 = sg ++ i ++ d ++ a :: p).
        { rewrite Es.
          replace (sg ++ (i ++ d ++ a :: p ++ s4))
            with ((sg ++ i ++ d ++ a :: p) ++ s4)
            by (rewrite <- !app_assoc; reflexivity).
          apply consumed_app. }
        rewrite Ec in H2. exact H2. }
    destruct (strip_prefix "." s1) as [s2|] eqn:E.
    - apply strip_prefix_Some in E.
      destruct (match s2 with
                | [] => None
                | a :: s'1 => if is_digit a then rep_greedy is_digit K s'1 else None
                end) as [m'|] eqn:E2.
      + injection H as <-. apply (Hplus (of_string ".") s2 E); [right; reflexivity|].
        exact E2.
      + apply (Hplus [] s1 eq_refl); [left; reflexivity|exact H].
    - apply (Hplus [] s1 eq_refl); [left; reflexivity|exact H]. }
  destruct s as [|a s0] eqn:Hs.
  - intros H. apply (Hbody [] []); [reflexivity|left; reflexivity|exact H].
  - destruct (is_sign a) eqn:Ha.
    + match goal with
      | |- match ?X with _ => _ end = _ -> _ => destruct X as [m'|] eqn:E
      end.
      * intros H. injection H as <-.
        apply (Hbody [a] s0); [reflexivity|apply is_sign_signed; exact Ha|exact E].
      * intros H.
        apply (Hbody [] (a :: s0)); [reflexivity|left; reflexivity|exact H].
    + intros H.
      apply (Hbody [] (a :: s0)); [reflexivity|left; reflexivity|exact H].
Qed.

Lemma span_digits_app (d s : str) :
  forallb is_digit d = true -> stops is_digit s ->
  span_digits (d ++ s) = (d, s).
Proof.
  intros Hd Hs. induction d as [|a d IH]; cbn [app span_digits].
  - destruct s as [|b s]; [reflexivity|]. cbn in Hs |- *. rewrite Hs. reflexivity.
  - cbn in Hd. apply andb_prop in Hd as [Ha Hd]. rewrite Ha, (IH Hd). reflexivity.
Qed.

Lemma digit_not_mark (a : ascii) :
  is_digit a = true ->
  Ascii.eqb a "-" = false /\ Ascii.eqb a "+" = false /\ Ascii.eqb a "." = false.
Proof.
  assert (H : forall b, negb (is_digit b)
                        || (negb (Ascii.eqb b "-") && negb (Ascii.eqb b "+")
                            && negb (Ascii.eqb b ".")) = true)
    by (apply ascii_all; vm_compute; reflexivity).
  intros Ha. specialize (H a). rewrite Ha in H.
  destruct (Ascii.eqb a "-"), (Ascii.eqb a "+"), (Ascii.eqb a ".");
    try discriminate; auto.
Qed.

(** [float] reads every text the number pattern can capture. *)
Lemma py_float_number_text (c : str) :
  number_text c -> exists f, py_float c = Ok f.
Proof.
  intros (s & i & d & f & -> & Hs & Hi & Hd & Hne & Hf).
  assert (Hbody : forall neg,
    exists x,
      (let (ip, r) := span_digits (i ++ d ++ f) in
       let (fp, r') :=
         match r with
         | a :: r1 => if Ascii.eqb a "." then span_digits r1 else ([], r)
         | [] => ([], r)
         end in
       match r', ip ++ fp with
       | [], _ :: _ =>
           Ok (float_of_decimal neg (digits_val 0 (ip ++ fp))
                                (Z.of_nat (List.length fp)))
       | _, _ => Raise ValueError
       end) = Ok x).
  { intros neg. destruct Hd as [->| ->].
    - cbn [app]. rewrite <- (app_nil_r (i ++ f)).
      rewrite span_digits_app; [|rewrite forallb_app, Hi, Hf; reflexivity|exact I].
      rewrite app_nil_r. destruct (i ++ f) eqn:E; [|eauto].
      apply app_eq_nil in E as [_ ->]. contradiction.
    - rewrite span_digits_app; [|exact Hi|reflexivity].
      change (of_string "." ++ f) with ("."%char :: f).
      cbv beta iota. rewrite Ascii.eqb_refl.
      pose proof (span_digits_app f [] Hf I) as Ef. rewrite app_nil_r in Ef.
      rewrite Ef. destruct (i ++ f) eqn:E; [|eauto].
      apply app_eq_nil in E as [_ ->]. contradiction. }
  unfold py_float.
  destruct Hs as [->|[->| ->]].
  - cbn [app]. destruct (i ++ d ++ f) as [|a t] eqn:E.
    + apply app_eq_nil in E as [_ E]. apply app_eq_nil in E as [_ ->].
      contradiction.
    + assert (Ha : Ascii.eqb a "-" = false /\ Ascii.eqb a "+" = false).
      { destruct i as [|b i].
        - destruct Hd as [->| ->]; cbn in E.
          + subst f. cbn in Hf. apply andb_prop in Hf as [Hb _].
            destruct (digit_not_mark a Hb) as (? & ? & _). auto.
          + injection E as <- _. split; reflexivity.
        - cbn in E, Hi. injection E as -> _. apply andb_prop in Hi as [Hb _].
          destruct (digit_not_mark a Hb) as (? & ? & _). auto. }
      destruct Ha as [-> ->]. apply Hbody.
  - change (of_string "-" ++ i ++ d ++ f) with ("-"%char :: i ++ d ++ f).
    cbv beta iota. rewrite Ascii.eqb_refl. apply Hbody.
  - change (of_string "+" ++ i ++ d ++ f) with ("+"%char :: i ++ d ++ f).
    cbv beta iota. replace (Ascii.eqb "+" "-") with false by reflexivity.
    rewrite Ascii.eqb_refl. apply Hbody.
Qed.

(** After blanks. *)
Ltac after_ws H :=
  let p := fresh "p" in let s := fresh "s" in
  apply rep_greedy_sound in H as (p & s & _ & _ & H).

(** After a literal. *)
Ltac after_lit H :=
  match type of H with
  | match strip_prefix ?l ?s with _ => _ end = Some _ =>
      destruct (strip_prefix l s); [|discriminate]
  end.

Lemma coord_pair_groups (s : str) (m : caps) :
  re_search COORD_PAIR s = Some m ->
  number_text (group 1 m) /\ number_text (group 2 m).
Proof.
  intros H. apply re_search_sound in H as (p0 & s0 & _ & H).
  unfold re_match, COORD_PAIR in H.
  apply number_sound in H as (c1 & t1 & _ & H1 & H).
  unfold ws in H. cbn [matchk] in H.
  after_ws H. after_lit H. after_ws H.
  apply number_sound in H as (c2 & t2 & _ & H2 & H).
  injection H as <-. cbn [group Nat.eqb]. auto.
Qed.

Lemma named_coord_groups (s : str) (m : caps) :
  re_search NAMED_COORD s = Some m ->
  number_text (group 1 m) /\ number_text (group 2 m).
Proof.
  intros H. apply re_search_sound in H as (p0 & s0 & _ & H).
  unfold re_match, NAMED_COORD, ws in H. cbn [matchk] in H.
  after_lit H. after_ws H. after_lit H. after_ws H.
  apply number_sound in H as (c1 & t1 & _ & H1 & H).
  cbn [matchk] in H.
  after_ws H. after_lit H. after_ws H. after_lit H. after_ws H. after_lit H.
  after_ws H.
  apply number_sound in H as (c2 & t2 & _ & H2 & H).
  injection H as <-. cbn [group Nat.eqb]. auto.
Qed.

Lemma iter_pos_inv {A : Type} (P : A -> Prop) (f : A -> A) (n : positive) (x : A) :
  (forall y, P y -> P (f y)) -> P x -> P (iter_pos f n x).
Proof.
  intros Hf. revert x. induction n as [n IH|n IH|]; intros x Hx; cbn.
  - apply IH, IH, Hf, Hx.
  - apply IH, IH, Hx.
  - apply Hf, Hx.
Qed.

Lemma shr_1_nonneg (mrs : shr_record) :
  0 <= shr_m mrs -> 0 <= shr_m (shr_1 mrs).
Proof.
  destruct mrs as [m r s]. cbn. destruct m as [|p|p]; cbn; try lia.
  - intros _. destruct p; cbn; lia.
Qed.

Lemma shr_fexp_nonneg (m e : Z) (l : location) :
  0 <= m -> 0 <= shr_m (fst (shr_fexp prec emax m e l)).
Proof.
  intros Hm. unfold shr_fexp, shr.
  assert (H0 : 0 <= shr_m (shr_record_of_loc m l))
    by (destruct l as [|[]]; exact Hm).
  destruct (fexp prec emax (Zdigits2 m + e) - e) as [|p|p]; cbn [fst]; try exact H0.
  apply iter_pos_inv; [apply shr_1_nonneg|exact H0].
Qed.

Lemma round_nearest_even_nonneg (m : Z) (l : location) :
  0 <= m -> 0 <= round_nearest_even m l.
Proof.
  intros Hm. destruct l as [|[]]; cbn; try lia.
  destruct (Z.even m); lia.
Qed.

Lemma binary_round_aux_not_nan (s : bool) (m e : Z) (l : location) :
  0 <= m -> not_nan (binary_round_aux prec emax s m e l).
Proof.
  intros Hm. unfold binary_round_aux, not_nan.
  pose proof (shr_fexp_nonneg m e l Hm) as H1.
  destruct (shr_fexp prec emax m e l) as [mrs' e'] eqn:E1. cbn [fst] in H1.
  pose proof (shr_fexp_nonneg
                (round_nearest_even (shr_m mrs') (loc_of_shr_record mrs')) e'
                loc_Exact (round_nearest_even_nonneg _ _ H1)) as H2.
  destruct (shr_fexp prec emax _ e' loc_Exact) as [mrs'' e''] eqn:E2.
  cbn [fst] in H2.
  destruct (shr_m mrs'') as [|p|p]; try discriminate; [|lia].
  destruct (e'' <=? emax - prec); discriminate.
Qed.

Lemma float_of_decimal_not_nan (neg : bool) (n k : Z) :
  not_nan (float_of_decimal neg n k).
Proof.
  unfold float_of_decimal. destruct n as [|p|p]; try discriminate.
  unfold SFdiv, SFdiv_core_binary.
  set (m' := match _ with Z0 => _ | Zpos _ => _ | Zneg _ => _ end).
  assert (Hm' : 0 <= m').
  { unfold m'. destruct (_ - _ - _) as [|q|q]; try lia.
    apply Z.shiftl_nonneg. lia. }
  pose proof (Z.div_pos m' (Zpos (Z.to_pos (10 ^ k))) Hm' ltac:(lia)) as Hq.
  unfold Z.div in Hq.
  destruct (Z.div_eucl m' (Zpos (Z.to_pos (10 ^ k)))) as [q r].
  apply binary_round_aux_not_nan. exact Hq.
Qed.

Lemma py_float_not_nan (s : str) (f : float) :
  py_float s = Ok f -> not_nan f.
Proof.
  unfold py_float.
  assert (H : forall neg t,
    (let (ip, r) := span_digits t in
     let (fp, r') :=
       match r with
       | a :: r1 => if Ascii.eqb a "." then span_digits r1 else ([], r)
       | [] => ([], r)
       end in
     match r', ip ++ fp with
     | [], _ :: _ =>
         Ok (float_of_decimal neg (digits_val 0 (ip ++ fp))
                              (Z.of_nat (List.length fp)))
     | _, _ => Raise ValueError
     end) = Ok f -> not_nan f).
  { intros neg t. destruct (span_digits t) as [ip r].
    destruct (match r with
              | a :: r1 => if Ascii.eqb a "." then span_digits r1 else ([], r)
              | [] => ([], r)
              end) as [fp r'].
    destruct r'; [|discriminate]. destruct (ip ++ fp); [discriminate|].
    intros E. injection E as <-. apply float_of_decimal_not_nan. }
  destruct s as [|a t]; [discriminate|].
  destruct (Ascii.eqb a "-"); [apply H|].
  destruct (Ascii.eqb a "+"); apply H.
Qed.

(** [scale] by a finite, non-zero dimension fails on an infinite
    product only. *)
Lemma scale_raises (w : Z) (f : float) (e : exn) :
  (exists sw mw ew, float_of_int w = S754_finite sw mw ew) -> not_nan f ->
  scale w f = Raise e -> e = OverflowError.
Proof.
  unfold scale, fmul, not_nan. intros (sw & mw & ew & ->) Hf.
  destruct f as [sf|sf| |sf mf ef]; try contradiction; cbn [SFmul].
  - cbn. discriminate.
  - cbn. congruence.
  - pose proof (binary_round_aux_not_nan (xorb sw sf) (Zpos (mw * mf)) (ew + ef)
                  loc_Exact ltac:(lia)) as H.
    unfold not_nan in H.
    destruct (binary_round_aux prec emax _ _ _ _); cbn; congruence.
Qed.

(** [_parse_coords] never fails in [float]; it fails in [int] only,
    by overflow. *)
Lemma parse_coords_raises (arg_str : str) (e : exn) :
  _parse_coords arg_str = Raise e -> e = OverflowError.
Proof.
  assert (Hm : forall m,
             number_text (group 1 m) -> number_text (group 2 m) ->
             (fx <- py_float (group 1 m) ;; x <- scale 1920 fx ;;
              fy <- py_float (group 2 m) ;; y <- scale 1080 fy ;;
              Ok (Some x, Some y)) = Raise e -> e = OverflowError).
  { intros m H1 H2.
    destruct (py_float_number_text _ H1) as (fx & Fx).
    destruct (py_float_number_text _ H2) as (fy & Fy).
    rewrite Fx, Fy. cbn [bind].
    destruct (scale 1920 fx) as [x|e1] eqn:Sx; cbn [bind].
    - destruct (scale 1080 fy) as [y|e2] eqn:Sy; cbn [bind]; [discriminate|].
      intros H. injection H as <-.
      apply (scale_raises 1080 fy); [vm_compute; eauto| |exact Sy].
      apply (py_float_not_nan _ _ Fy).
    - intros H. injection H as <-.
      apply (scale_raises 1920 fx); [vm_compute; eauto| |exact Sx].
      apply (py_float_not_nan _ _ Fx). }
  unfold _parse_coords.
  destruct (re_search NAMED_COORD arg_str) as [m|] eqn:En.
  - destruct (named_coord_groups arg_str m En). apply Hm; assumption.
  - destruct (re_search COORD_PAIR arg_str) as [m|] eqn:Ep; [|discriminate].
    destruct (coord_pair_groups arg_str m Ep). apply Hm; assumption.
Qed.

(** ** The sections of any response *)

Lemma forallb_lstrip (P : ascii -> bool) (s : str) :
  forallb P s = true -> forallb P (lstrip s) = true.
Proof.
  induction s as [|a s IH]; cbn; [reflexivity|].
  intros H. destruct (is_space a); [|exact H].
  apply andb_prop in H as [_ H]. auto.
Qed.

Lemma forallb_rev (P : ascii -> bool) (s : str) :
  forallb P s = true -> forallb P (rev s) = true.
Proof.
  intros H. rewrite forallb_forall in *. intros a Ha. apply H, in_rev, Ha.
Qed.

Lemma forallb_strip (P : ascii -> bool) (s : str) :
  forallb P s = true -> forallb P (strip s) = true.
Proof.
  intros H. unfold strip, rstrip.
  apply forallb_rev, forallb_lstrip, forallb_rev, forallb_lstrip, H.
Qed.

Lemma lstrip_stops (s : str) : stops is_space (lstrip s).
Proof.
  induction s as [|a s IH]; cbn; [exact I|].
  destruct (is_space a) eqn:E; [exact IH|exact E].
Qed.

(** [lstrip] drops blanks from the front and nothing else. *)
Lemma lstrip_suffix (s : str) :
  exists x, s = x ++ lstrip s /\ forallb is_space x = true.
Proof.
  induction s as [|a s (x & E & Hx)]; cbn.
  - exists []. auto.
  - destruct (is_space a) eqn:Ea.
    + exists (a :: x). cbn. rewrite Ea, Hx, <- E. auto.
    + exists []. auto.
Qed.

Lemma strip_trimmed (s : str) : trimmed (strip s).
Proof.
  unfold trimmed, strip, rstrip. split.
  - destruct (lstrip_suffix (rev (lstrip s))) as (x & E & Hx).
    apply (f_equal (@rev ascii)) in E. rewrite rev_involutive, rev_app_distr in E.
    pose proof (lstrip_stops s) as Hs. rewrite E in Hs.
    destruct (rev (lstrip (rev (lstrip s)))); [exact I|exact Hs].
  - rewrite rev_involutive. apply lstrip_stops.
Qed.

(** The text a header pattern captures. *)
Lemma header_group (name : str) (s : str) (m : caps) :
  re_search (Seq (Lit "##") (Seq ws (Seq (Lit name) (Seq ws (Seq (Lit LF)
               (Grp 1 (Plus true not_hash_tick))))))) s = Some m ->
  forallb not_hash_tick (group 1 m) = true.
Proof.
  intros H. apply re_search_sound in H as (p0 & s0 & _ & H).
  unfold re_match, ws, Plus in H. cbn [matchk] in H.
  after_lit H. after_ws H. after_lit H. after_ws H. after_lit H.
  match type of H with
  | match ?x with _ => _ end = _ => destruct x as [|a t1]; [discriminate|]
  end.
  destruct (not_hash_tick a) eqn:Ha; [|discriminate].
  apply rep_greedy_sound in H as (run & t2 & -> & Hp & H).
  injection H as <-. cbn [group Nat.eqb].
  change (a :: run ++ t2) with ((a :: run) ++ t2). rewrite consumed_app.
  cbn. rewrite Ha, Hp. reflexivity.
Qed.

(** The text the fence pattern captures. *)
Lemma fence_group (s : str) (m : caps) :
  re_search CODE_RE s = Some m -> forallb not_tick (group 1 m) = true.
Proof.
  intros H. apply re_search_sound in H as (p0 & s0 & _ & H).
  unfold re_match, CODE_RE, Opt, ws, Plus in H. cbn [matchk] in H.
  after_lit H.
  match type of H with
  | context [rep_greedy is_space ?K s1] => set (k := K) in *
  end.
  assert (Htail : forall s3 m',
            rep_greedy is_space k s3 = Some m' ->
            forallb not_tick (group 1 m') = true).
  { intros s3 m' H3. apply rep_greedy_sound in H3 as (blanks & s4 & _ & _ & H3).
    unfold k in H3. destruct s4 as [|a t5]; [discriminate|].
    destruct (not_tick a) eqn:Ha; [|discriminate].
    apply rep_lazy_sound in H3 as (run & t6 & -> & Hp2 & H3).
    destruct (strip_prefix "```" t6); [|discriminate].
    injection H3 as <-. cbn [group Nat.eqb].
    change (a :: run ++ t6) with ((a :: run) ++ t6). rewrite consumed_app.
    cbn. rewrite Ha, Hp2. reflexivity. }
  destruct (strip_prefix "python" s1) as [sp|].
  - destruct (rep_greedy is_space k sp) as [m1|] eqn:E1.
    + injection H as <-. exact (Htail _ _ E1).
    + destruct (strip_prefix "code" s1) as [sc|].
      * destruct (rep_greedy is_space k sc) as [m2|] eqn:E2.
        -- injection H as <-. exact (Htail _ _ E2).
        -- exact (Htail _ _ H).
      * exact (Htail _ _ H).
  - destruct (strip_prefix "code" s1) as [sc|].
    + destruct (rep_greedy is_space k sc) as [m2|] eqn:E2.
      * injection H as <-. exact (Htail _ _ E2).
      * exact (Htail _ _ H).
    + exact (Htail _ _ H).
Qed.

(** X1: whatever the response, each of the three sections is trimmed
    (it neither begins nor ends with a blank), the thought and the
    action hold no [#] and no backtick, and the code holds no
    backtick. *)
Theorem sections_are_clean :
  forall resp : str,
    (trimmed (fst (fst (extract_sections resp)))
     /\ forallb not_hash_tick (fst (fst (extract_sections resp))) = true)
    /\ (trimmed (snd (fst (extract_sections resp)))
        /\ forallb not_hash_tick (snd (fst (extract_sections resp))) = true)
    /\ (trimmed (snd (extract_sections resp))
        /\ forallb not_tick (snd (extract_sections resp)) = true).
Proof.
  intros resp. unfold extract_sections. cbn [fst snd].
  assert (Hnil : trimmed []) by (split; exact I).
  repeat split.
  - destruct (re_search THOUGHT_RE resp); [apply strip_trimmed|apply Hnil].
  - destruct (re_search THOUGHT_RE resp); [apply strip_trimmed|apply Hnil].
  - destruct (re_search THOUGHT_RE resp) as [m|] eqn:E; [|reflexivity].
    apply forallb_strip. exact (header_group "Thought:" resp m E).
  - destruct (re_search ACTION_RE resp); [apply strip_trimmed|apply Hnil].
  - destruct (re_search ACTION_RE resp); [apply strip_trimmed|apply Hnil].
  - destruct (re_search ACTION_RE resp) as [m|] eqn:E; [|reflexivity].
    apply forallb_strip. exact (header_group "Action:" resp m E).
  - destruct (re_search CODE_RE resp); [apply strip_trimmed|apply Hnil].
  - destruct (re_search CODE_RE resp); [apply strip_trimmed|apply Hnil].
  - destruct (re_search CODE_RE resp) as [m|] eqn:E; [|reflexivity].
    apply forallb_strip. exact (fence_group resp m E).
Qed.

(** ** Calls and their coordinates *)

Lemma shape_click (fn args rest : str) :
  click_name fn -> forallb not_rparen args = true ->
  shape_of (call_line fn args rest) = IsClick fn args.
Proof.
  intros Hfn Ha. unfold call_line, shape_of, re_match.
  unfold click_re, call.
  cbn [matchk]. rewrite !strip_prefix_app.
  destruct Hfn as [->|[->| ->]]; repeat lit_fail; cbv beta iota;
    rewrite ?strip_prefix_app;
    (erewrite rep_greedy_run;
     [|exact Ha|reflexivity|rewrite strip_prefix_app; reflexivity]);
    cbn [group Nat.eqb]; rewrite !consumed_app; reflexivity.
Qed.

Lemma shape_moveTo (args rest : str) :
  forallb not_rparen args = true ->
  shape_of (call_line "moveTo" args rest) = IsAnchor args.
Proof.
  intros Ha. unfold call_line, shape_of, re_match.
  unfold click_re, scroll_re, anchor_re, call.
  cbn [matchk]. rewrite !strip_prefix_app.
  repeat lit_fail. cbv beta iota.
  erewrite rep_greedy_run;
    [|exact Ha|reflexivity|rewrite strip_prefix_app; reflexivity].
  cbn [group Nat.eqb]. rewrite consumed_app. reflexivity.
Qed.

Lemma shape_dragTo (args rest : str) :
  forallb not_rparen args = true ->
  shape_of (call_line "dragTo" args rest) = IsDragTo args.
Proof.
  intros Ha. unfold call_line, shape_of, re_match.
  unfold click_re, scroll_re, anchor_re, dragto_re, call.
  cbn [matchk]. rewrite !strip_prefix_app.
  repeat lit_fail. cbv beta iota.
  erewrite rep_greedy_run;
    [|exact Ha|reflexivity|rewrite strip_prefix_app; reflexivity].
  cbn [group Nat.eqb]. rewrite consumed_app. reflexivity.
Qed.


(** After blanks, keeping where they stand. *)
Ltac ws_eq H :=
  let p := fresh "blanks" in let s := fresh "s" in
  apply rep_greedy_sound in H as (p & s & -> & _ & H).

(** After a literal, keeping where it stands. *)
Ltac lit_eq H :=
  match type of H with
  | match strip_prefix ?l ?s with _ => _ end = Some _ =>
      let E := fresh "E" in
      destruct (strip_prefix l s) eqn:E;
      [apply strip_prefix_Some in E; subst s|discriminate]
  end.

Lemma number_text_digit (c : str) :
  number_text c -> existsb is_digit c = true.
Proof.
  intros (s & i & d & f & -> & _ & _ & _ & Hne & Hf).
  rewrite !existsb_app. destruct f as [|a f]; [contradiction|].
  cbn in Hf |- *. apply andb_prop in Hf as [-> _].
  rewrite !orb_true_r. reflexivity.
Qed.

Lemma coord_pair_needs_digit (s : str) (m : caps) :
  re_search COORD_PAIR s = Some m -> existsb is_digit s = true.
Proof.
  intros H. apply re_search_sound in H as (p0 & s0 & -> & H).
  unfold re_match, COORD_PAIR in H.
  apply number_sound in H as (c1 & t1 & -> & H1 & _).
  rewrite !existsb_app, (number_text_digit c1 H1), !orb_true_r. reflexivity.
Qed.

Lemma named_coord_needs_digit (s : str) (m : caps) :
  re_search NAMED_COORD s = Some m -> existsb is_digit s = true.
Proof.
  intros H. apply re_search_sound in H as (p0 & s0 & -> & H).
  unfold re_match, NAMED_COORD, ws in H. cbn [matchk] in H.
  lit_eq H. ws_eq H. lit_eq H. ws_eq H.
  apply number_sound in H as (c1 & t1 & -> & H1 & _).
  rewrite !existsb_app, (number_text_digit c1 H1), !orb_true_r. reflexivity.
Qed.

Lemma no_digit_existsb (s : str) : no_digit s -> existsb is_digit s = false.
Proof.
  unfold no_digit. induction s as [|a s IH]; cbn; [reflexivity|].
  intros H. apply andb_prop in H as [Ha Hs].
  destruct (is_digit a); [discriminate|]. auto.
Qed.

Lemma parse_coords_none (arg_str : str) :
  no_digit arg_str -> _parse_coords arg_str = Ok (None, None).
Proof.
  intros H. apply no_digit_existsb in H. unfold _parse_coords.
  destruct (re_search NAMED_COORD arg_str) as [m|] eqn:En.
  - apply named_coord_needs_digit in En. congruence.
  - destruct (re_search COORD_PAIR arg_str) as [m|] eqn:Ep; [|reflexivity].
    apply coord_pair_needs_digit in Ep. congruence.
Qed.

(** X2: arguments without a digit parse to no coordinates, and
    nothing is raised; so a click, rightClick or doubleClick call on
    such arguments still sets the MouseAction of that type, with both
    coordinates absent. *)
Theorem click_without_coordinates :
  (forall arg_str : str,
     no_digit arg_str -> _parse_coords arg_str = Ok (None, None))
  /\ (forall (st : scan) (fn args rest : str),
        click_name fn -> forallb not_rparen args = true -> no_digit args ->
        scan_line st (call_line fn args rest)
        = Ok (Scan (Some (Click fn None None))
                   (keyboard_action st) (start_coords st))).
Proof.
  split; [exact parse_coords_none|].
  intros st fn args rest Hfn Ha Hd. unfold scan_line.
  rewrite shape_click by assumption.
  rewrite parse_coords_none by assumption. reflexivity.
Qed.

Lemma click_without_coordinates_witness :
  _parse_coords "button='left'" = Ok (None, None)
  /\ scan_line scan0 (call_line "doubleClick" "button='left'" [])
     = Ok (Scan (Some (Click "doubleClick" None None)) None None).
Proof.
  split.
  - apply (proj1 click_without_coordinates (of_string "button='left'")). reflexivity.
  - apply (proj2 click_without_coordinates scan0 (of_string "doubleClick")
                 (of_string "button='left'") []).
    + right. right. reflexivity.
    + reflexivity.
    + reflexivity.
Defined.

Lemma named_coord_match (c1 c2 tail : str) :
  decimal_literal c1 -> decimal_literal c2 -> ends_number tail ->
  re_match NAMED_COORD (of_string "x=" ++ c1 ++ of_string ", y=" ++ c2 ++ tail)
  = Some [(2%nat, c2); (1%nat, c1)].
Proof.
  intros H1 H2 Ht. unfold re_match, NAMED_COORD, ws.
  change (of_string "x=" ++ c1 ++ of_string ", y=" ++ c2 ++ tail)
    with (of_string "x" ++ of_string "=" ++ c1 ++ of_string ", y=" ++ c2 ++ tail).
  cbn [matchk]. rewrite strip_prefix_app.
  rewrite rep_greedy_stop by reflexivity.
  rewrite strip_prefix_app.
  rewrite rep_greedy_stop by (apply decimal_stops_space; exact H1).
  apply number_match; [exact H1|split; [reflexivity|discriminate]|].
  cbn [matchk].
  change (of_string ", y=" ++ c2 ++ tail)
    with (of_string "," ++ [" "%char] ++ of_string "y" ++ of_string "=" ++ c2 ++ tail).
  rewrite rep_greedy_stop by reflexivity.
  rewrite strip_prefix_app.
  apply rep_greedy_run; [reflexivity|reflexivity|].
  rewrite strip_prefix_app.
  rewrite rep_greedy_stop by reflexivity.
  rewrite strip_prefix_app.
  rewrite rep_greedy_stop by (apply decimal_stops_space; exact H2).
  apply (number_match 2 c2 tail [(1%nat, c1)] (fun _ g => Some g)); auto.
Qed.

Lemma named_coord_search (pre c1 c2 tail : str) :
  forallb (fun b => negb (Ascii.eqb "x" b)) pre = true ->
  decimal_literal c1 -> decimal_literal c2 -> ends_number tail ->
  re_search NAMED_COORD (named_args pre c1 c2 tail)
  = Some [(2%nat, c2); (1%nat, c1)].
Proof.
  intros Hp H1 H2 Ht. unfold named_args, NAMED_COORD.
  change (of_string "x") with ("x"%char :: []).
  rewrite re_search_skip by exact Hp.
  apply re_search_here. exact (named_coord_match c1 c2 tail H1 H2 Ht).
Qed.

(** X3: coordinates named [x=], [y=] are the ones parsed, whatever
    stands before them: a pair of numbers earlier in the arguments is
    passed over. *)
Theorem named_coordinates_first :
  forall pre c1 c2 tail : str,
    forallb (fun b => negb (Ascii.eqb "x" b)) pre = true ->
    decimal_literal c1 -> decimal_literal c2 -> ends_number tail ->
    _parse_coords (named_args pre c1 c2 tail)
    = (fx <- py_float c1 ;; x <- scale 1920 fx ;;
       fy <- py_float c2 ;; y <- scale 1080 fy ;; Ok (Some x, Some y)).
Proof.
  intros pre c1 c2 tail Hp H1 H2 Ht. unfold _parse_coords.
  rewrite (named_coord_search pre c1 c2 tail Hp H1 H2 Ht). reflexivity.
Qed.

Lemma named_coordinates_first_witness :
  _parse_coords (named_args "0.1, 0.2, " "0.5" "0.25" ", clicks=2")
  = Ok (Some 960, Some 270).
Proof.
  rewrite (named_coordinates_first "0.1, 0.2, " "0.5" "0.25" ", clicks=2").
  - vm_compute. reflexivity.
  - reflexivity.
  - right. exists [], (of_string "0"), (of_string "5").
    repeat split; try reflexivity; [left; reflexivity|discriminate].
  - right. exists [], (of_string "0"), (of_string "25").
    repeat split; try reflexivity; [left; reflexivity|discriminate].
  - split; [reflexivity|discriminate].
Defined.

Lemma pair_no_rparen (c1 c2 : str) :
  decimal_literal c1 -> decimal_literal c2 ->
  forallb not_rparen (c1 ++ of_string ", " ++ c2) = true.
Proof.
  intros H1 H2. rewrite !forallb_app.
  cbn [of_string list_ascii_of_string forallb].
  rewrite !(num_chars_all not_rparen); try assumption; try reflexivity;
    intros a Ha; apply (num_char_facts a Ha).
Qed.

(** X4: a click, rightClick or doubleClick call on two decimal
    literals sets the MouseAction of that type, with the first literal
    scaled by 1920 as x and the second scaled by 1080 as y; the
    KeyboardAction and the pending drag-start stay as they were. *)
Theorem click_pair :
  forall (st : scan) (fn c1 c2 rest : str) (fx fy : float) (x y : Z),
    click_name fn -> decimal_literal c1 -> decimal_literal c2 ->
    py_float c1 = Ok fx -> scale 1920 fx = Ok x ->
    py_float c2 = Ok fy -> scale 1080 fy = Ok y ->
    scan_line st (call_line fn (c1 ++ of_string ", " ++ c2) rest)
    = Ok (Scan (Some (Click fn (Some x) (Some y)))
               (keyboard_action st) (start_coords st)).
Proof.
  intros st fn c1 c2 rest fx fy x y Hfn H1 H2 Hfx Hx Hfy Hy.
  unfold scan_line. rewrite shape_click; [|exact Hfn|].
  - rewrite <- (app_nil_r c2).
    rewrite parse_coords_positional; try assumption; try reflexivity.
    rewrite Hfx. cbn [bind]. rewrite Hx. cbn [bind].
    rewrite Hfy. cbn [bind]. rewrite Hy. reflexivity.
  - apply pair_no_rparen; assumption.
Qed.

Lemma click_pair_witness :
  scan_line scan0 (call_line "rightClick" (of_string "0.1" ++ of_string ", "
                                             ++ of_string "-.2") "  # menu")
  = Ok (Scan (Some (Click "rightClick" (Some 192) (Some (-216)))) None None).
Proof.
  eapply (click_pair scan0 (of_string "rightClick") (of_string "0.1")
                     (of_string "-.2") (of_string "  # menu")).
  - right. left. reflexivity.
  - right. exists [], (of_string "0"), (of_string "1").
    repeat split; try reflexivity; [left; reflexivity|discriminate].
  - right. exists (of_string "-"), [], (of_string "2").
    repeat split; try reflexivity; [right; left; reflexivity|discriminate].
  - vm_compute. reflexivity.
  - vm_compute. reflexivity.
  - vm_compute. reflexivity.
  - vm_compute. reflexivity.
Defined.

(** X5: a moveTo line and a dragTo line after it give the drag
    record from what the first line parses to to what the second
    parses to, and the first pair stays pending; a line without
    coordinates counts as well, with absent coordinates. *)
Theorem move_then_drag :
  forall (st : scan) (args1 rest1 args2 rest2 : str) (s e : coords),
    forallb not_rparen args1 = true -> forallb not_rparen args2 = true ->
    _parse_coords args1 = Ok s -> _parse_coords args2 = Ok e ->
    scan_lines st [call_line "moveTo" args1 rest1;
                   call_line "dragTo" args2 rest2]
    = Ok (Scan (Some (Drag (fst s) (snd s) (fst e) (snd e)))
               (keyboard_action st) (Some s)).
Proof.
  intros st args1 rest1 args2 rest2 s e Ha1 Ha2 Ps Pe.
  cbn [scan_lines]. unfold scan_line.
  rewrite shape_moveTo by assumption. rewrite Ps. cbn [bind].
  rewrite shape_dragTo by assumption. rewrite Pe. reflexivity.
Qed.

Lemma move_then_drag_witness :
  scan_lines scan0 [call_line "moveTo" "0.1, 0.2" [];
                    call_line "dragTo" "duration=1" []]
  = Ok (Scan (Some (Drag (Some 192) (Some 216) None None)) None
             (Some (Some 192, Some 216))).
Proof.
  apply (move_then_drag scan0 (of_string "0.1, 0.2") [] (of_string "duration=1") []
                        (Some 192, Some 216) (None, None)).
  - reflexivity.
  - reflexivity.
  - vm_compute. reflexivity.
  - vm_compute. reflexivity.
Defined.




(** ** What a code block can raise *)

Lemma py_int_raises (s : str) (e : exn) : py_int s = Raise e -> e = ValueError.
Proof.
  unfold py_int. destruct (strip s) as [|a t]; [congruence|].
  assert (H : forall u, match int_digits 0 0 false u with
                        | Some n => Ok n | None => Raise ValueError end = Raise e
                        -> e = ValueError).
  { intros u. destruct (int_digits 0 0 false u); congruence. }
  destruct (Ascii.eqb a "-").
  - destruct (int_digits 0 0 false t); cbn [bind]; congruence.
  - destruct (Ascii.eqb a "+"); apply H.
Qed.

Lemma search_group1_raises (r : regex) (s : str) (e : exn) :
  search_group1 r s = Raise e -> e = AttributeError.
Proof. unfold search_group1. destruct (re_search r s); congruence. Qed.

Lemma scan_line_raises (st : scan) (line : str) (e : exn) :
  scan_line st line = Raise e -> may_raise (shape_of line) e.
Proof.
  unfold scan_line, may_raise.
  destruct (shape_of line) as [f a|a|a|a|a|a|].
  - destruct (_parse_coords a) eqn:P; cbn [bind]; [discriminate|].
    intros H. injection H as <-. exact (parse_coords_raises a _ P).
  - destruct (py_int _) eqn:I; cbn [bind].
    + destruct (_parse_coords a) eqn:P; cbn [bind]; [discriminate|].
      intros H. injection H as <-. right. exact (parse_coords_raises a _ P).
    + intros H. injection H as <-. left. exact (py_int_raises _ _ I).
  - destruct (_parse_coords a) eqn:P; cbn [bind]; [discriminate|].
    intros H. injection H as <-. exact (parse_coords_raises a _ P).
  - destruct (_parse_coords a) eqn:P; cbn [bind].
    + destruct (start_coords st); discriminate.
    + intros H. injection H as <-. exact (parse_coords_raises a _ P).
  - destruct (search_group1 _ _) eqn:S; cbn [bind]; [discriminate|].
    intros H. injection H as <-. exact (search_group1_raises _ _ _ S).
  - destruct (search_group1 _ _) eqn:S; cbn [bind]; [discriminate|].
    intros H. injection H as <-. exact (search_group1_raises _ _ _ S).
  - discriminate.
Qed.

Lemma scan_lines_raises (lines : list str) (st : scan) (e : exn) :
  scan_lines st lines = Raise e ->
  exists line st1, In line lines /\ scan_line st1 line = Raise e.
Proof.
  revert st. induction lines as [|l lines IH]; intros st; cbn [scan_lines].
  - discriminate.
  - destruct (scan_line st l) as [st1|e1] eqn:E; cbn [bind].
    + intros H. destruct (IH st1 H) as (line & st2 & Hin & Hr).
      exists line, st2. split; [right; exact Hin|exact Hr].
    + intros H. injection H as <-. exists l, st. split; [left; reflexivity|exact E].
Qed.

(** X7: when [build_actions] raises, some line of the code takes a
    branch of the scan and the exception is one that branch can give:
    OverflowError for a click, moveTo or dragTo line, ValueError or
    OverflowError for a scroll line, AttributeError for a write,
    typewrite or press line.  Lines outside the branches raise
    nothing. *)
Theorem build_actions_raise_kinds :
  forall (code : str) (e : exn),
    build_actions code = Raise e ->
    exists line, In line (code_lines code) /\ may_raise (shape_of line) e.
Proof.
  intros code e. unfold build_actions.
  destruct (scan_lines scan0 (code_lines code)) as [st|e1] eqn:E; cbn [bind];
    [discriminate|].
  intros H. injection H as <-.
  destruct (scan_lines_raises _ _ _ E) as (line & st1 & Hin & Hr).
  exists line. split; [exact Hin|]. exact (scan_line_raises st1 line e1 Hr).
Qed.

Lemma build_actions_raise_kinds_witness :
  build_actions scroll_without_amount = Raise ValueError
  /\ exists line, In line (code_lines scroll_without_amount)
                  /\ may_raise (shape_of line) ValueError.
Proof.
  assert (E : build_actions scroll_without_amount = Raise ValueError)
    by (vm_compute; reflexivity).
  split; [exact E|].
  exact (build_actions_raise_kinds scroll_without_amount ValueError E).
Defined.

(** ** Lines that do not count *)

Lemma scan_lines_calls (lines : list str) (st : scan) :
  scan_lines st (filter is_call lines) = scan_lines st lines.
Proof.
  revert st. induction lines as [|l lines IH]; intros st; [reflexivity|].
  cbn [filter scan_lines]. unfold is_call at 1.
  destruct (strip_prefix "pyautogui." l) eqn:E.
  - cbn [scan_lines]. destruct (scan_line st l); cbn [bind]; auto.
  - rewrite (scan_line_other st l E). cbn [bind]. apply IH.
Qed.

(** X8: only the lines that start with [pyautogui.] count: two code
    blocks with the same such lines, in the same order, give the same
    result, be it a pair of actions or an exception. *)
Theorem only_calls_count :
  forall code1 code2 : str,
    filter is_call (code_lines code1) = filter is_call (code_lines code2) ->
    build_actions code1 = build_actions code2.
Proof.
  intros code1 code2 H. unfold build_actions.
  rewrite <- (scan_lines_calls (code_lines code1)), H, scan_lines_calls.
  reflexivity.
Qed.

Lemma only_calls_count_witness :
  build_actions commented_click = build_actions bare_click.
Proof.
  apply (only_calls_count commented_click bare_click).
  vm_compute. reflexivity.
Defined.

Lemma keyboard_action_kept (st st' : scan) (line : str) :
  scan_line st line = Ok st' -> sets_keyboard line = false ->
  keyboard_action st' = keyboard_action st.
Proof.
  unfold scan_line, sets_keyboard.
  destruct (shape_of line) as [f a|a|a|a|a|a|]; intros H Hl; try discriminate.
  - destruct (_parse_coords a); cbn in H; [|discriminate].
    injection H as <-. reflexivity.
  - destruct (py_int _); cbn in H; [|discriminate].
    destruct (_parse_coords a); cbn in H; [|discriminate].
    injection H as <-. reflexivity.
  - destruct (_parse_coords a); cbn in H; [|discriminate].
    injection H as <-. reflexivity.
  - destruct (_parse_coords a); cbn in H; [|discriminate].
    destruct (start_coords st) eqn:E; injection H as <-; reflexivity.
  - injection H as <-. reflexivity.
Qed.

Lemma mouse_action_kept (st st' : scan) (line : str) :
  scan_line st line = Ok st' -> sets_mouse line = false ->
  mouse_action st' = mouse_action st.
Proof.
  unfold scan_line, sets_mouse.
  destruct (shape_of line) as [f a|a|a|a|a|a|]; intros H Hl; try discriminate.
  - destruct (_parse_coords a); cbn in H; [|discriminate].
    injection H as <-. reflexivity.
  - destruct (search_group1 _ _); cbn in H; [|discriminate].
    injection H as <-. reflexivity.
  - destruct (search_group1 _ _); cbn in H; [|discriminate].
    injection H as <-. reflexivity.
  - injection H as <-. reflexivity.
Qed.

Lemma field_kept {A : Type} (field : scan -> A) (touches : str -> bool) :
  (forall st st' line, scan_line st line = Ok st' -> touches line = false ->
                       field st' = field st) ->
  forall lines st st',
    scan_lines st lines = Ok st' ->
    Forall (fun l => touches l = false) lines ->
    field st' = field st.
Proof.
  intros Hstep lines. induction lines as [|l lines IH]; intros st st' H HF.
  - cbn in H. injection H as <-. reflexivity.
  - cbn [scan_lines] in H. destruct (scan_line st l) as [st1|] eqn:E; [|discriminate].
    cbn [bind] in H. inversion HF as [|? ? Hl HF']; subst.
    rewrite (IH st1 st' H HF'). exact (Hstep st st1 l E Hl).
Qed.

(** X9: the two records do not touch each other, and the last line
    of a kind decides: over lines none of which takes a click, scroll
    or dragTo branch the MouseAction stays what it was, and over lines
    none of which takes a write, typewrite or press branch the
    KeyboardAction stays what it was. *)
Theorem lines_keep_other_action :
  forall (st : scan) (lines : list str) (st' : scan),
    scan_lines st lines = Ok st' ->
    (Forall (fun l => sets_mouse l = false) lines ->
     mouse_action st' = mouse_action st)
    /\ (Forall (fun l => sets_keyboard l = false) lines ->
        keyboard_action st' = keyboard_action st).
Proof.
  intros st lines st' H. split; intros HF.
  - exact (field_kept mouse_action sets_mouse mouse_action_kept lines st st' H HF).
  - exact (field_kept keyboard_action sets_keyboard keyboard_action_kept
                      lines st st' H HF).
Qed.

Lemma lines_keep_other_action_witness :
  scan_lines clicked keys_after_click = Ok typed_after_click
  /\ mouse_action typed_after_click = mouse_action clicked.
Proof.
  assert (E : scan_lines clicked keys_after_click = Ok typed_after_click)
    by (vm_compute; reflexivity).
  split; [exact E|].
  apply (proj1 (lines_keep_other_action clicked keys_after_click
                                        typed_after_click E)).
  repeat constructor.
Defined.

Lemma splitlines_from_last (r cur : str) :
  one_line r ->
  splitlines_from cur r = match rev cur ++ r with [] => [] | l => [l] end.
Proof.
  unfold one_line. revert cur. induction r as [|a r IH]; intros cur H.
  - cbn [splitlines_from]. rewrite app_nil_r.
    destruct cur as [|c cur]; [reflexivity|].
    destruct (rev (c :: cur)) eqn:E; [|reflexivity].
    apply (f_equal (@List.length ascii)) in E. rewrite length_rev in E. discriminate.
  - cbn [forallb] in H. apply andb_prop in H as [Ha Hr].
    cbn [splitlines_from]. apply negb_true_iff in Ha. rewrite Ha.
    rewrite (IH (a :: cur) Hr). cbn [rev]. rewrite <- app_assoc. reflexivity.
Qed.

Lemma splitlines_from_line (r cur s : str) :
  one_line r ->
  splitlines_from cur (r ++ LF ++ s) = (rev cur ++ r) :: splitlines_from [] s.
Proof.
  unfold one_line. revert cur. induction r as [|a r IH]; intros cur H.
  - cbn [app LF splitlines_from]. rewrite app_nil_r.
    change (is_linebreak "010") with true. cbv iota.
    destruct s as [|b s]; [reflexivity|].
    change (ord "010" =? 13)%nat with false. reflexivity.
  - cbn [forallb] in H. apply andb_prop in H as [Ha Hr].
    change ((a :: r) ++ LF ++ s) with (a :: (r ++ LF ++ s)).
    cbn [splitlines_from]. apply negb_true_iff in Ha. rewrite Ha.
    rewrite (IH (a :: cur) Hr). cbn [rev]. rewrite <- app_assoc. reflexivity.
Qed.

Lemma splitlines_join (raws : list str) :
  Forall one_line raws ->
  filter (fun ln => negb (blank ln)) (splitlines (join_lines raws))
  = filter (fun ln => negb (blank ln)) raws.
Proof.
  unfold splitlines. induction raws as [|r raws IH]; intros H; [reflexivity|].
  inversion H as [|? ? Hr Hrs]; subst.
  destruct raws as [|r2 raws].
  - cbn [join_lines]. rewrite (splitlines_from_last r [] Hr). cbn [rev app].
    destruct r; reflexivity.
  - change (join_lines (r :: r2 :: raws)) with (r ++ LF ++ join_lines (r2 :: raws)).
    rewrite (splitlines_from_line r [] _ Hr). cbn [rev app filter].
    rewrite (IH Hrs). reflexivity.
Qed.

Lemma code_lines_filter (raws : list str) :
  map strip (filter (fun ln => match strip ln with [] => false | _ => true end) raws)
  = map strip (filter (fun ln => negb (blank ln)) raws).
Proof.
  f_equal. apply filter_ext. intros a. unfold blank. destruct (strip a); reflexivity.
Qed.

(** X10: the lines the scan reads from a text made of lines joined by
    line feeds are those lines, in order, each stripped of the blanks
    around it, without the ones that are blank. *)
Theorem code_lines_join :
  forall raws : list str,
    Forall one_line raws ->
    code_lines (join_lines raws)
    = map strip (filter (fun ln => negb (blank ln)) raws).
Proof.
  intros raws H. unfold code_lines. rewrite !code_lines_filter.
  rewrite (splitlines_join raws H). reflexivity.
Qed.

Lemma code_lines_join_witness :
  code_lines (join_lines indented_lines)
  = [of_string "pyautogui.click(0.1, 0.2)"; of_string "pyautogui.press('enter')"].
Proof.
  rewrite (code_lines_join indented_lines).
  - vm_compute. reflexivity.
  - repeat constructor.
Defined.

(** ** Named scroll coordinates and calls of other names *)

(** X11: a scroll call that names its coordinates, written as an
    integer literal followed by [x=] and [y=] with decimal literals,
    gets the literal as clicks, x from the first coordinate scaled by
    1920 and y from the second scaled by 1080. *)
Theorem scroll_named_call :
  forall (st : scan) (n c1 c2 rest : str) (k : Z) (fx fy : float) (x y : Z),
    int_literal n -> decimal_literal c1 -> decimal_literal c2 ->
    py_int n = Ok k ->
    py_float c1 = Ok fx -> scale 1920 fx = Ok x ->
    py_float c2 = Ok fy -> scale 1080 fy = Ok y ->
    scan_line st (call_line "scroll" (named_args (n ++ of_string ", ") c1 c2 []) rest)
    = Ok (Scan (Some (Scroll (Some x) (Some y) k))
               (keyboard_action st) (start_coords st)).
Proof.
  intros st n c1 c2 rest k fx fy x y Hn H1 H2 Hk Hfx Hx Hfy Hy.
  assert (Hn' : decimal_literal n) by (left; exact Hn).
  assert (Hpre : forallb (fun b => negb (Ascii.eqb "x" b)) (n ++ of_string ", ")
                 = true).
  { rewrite forallb_app. cbn [of_string list_ascii_of_string forallb].
    rewrite (num_chars_all (fun b => negb (Ascii.eqb "x" b)) n);
      [reflexivity| |exact Hn'].
    intros a Ha. destruct (num_char_facts a Ha) as (_ & _ & -> & _). reflexivity. }
  unfold scan_line, call_line. rewrite shape_scroll.
  - unfold named_args at 1.
    change (before_comma ((n ++ of_string ", ") ++ of_string "x=" ++ c1
                            ++ of_string ", y=" ++ c2 ++ []))
      with (before_comma ((n ++ ","%char :: [" "%char]) ++ of_string "x=" ++ c1
                            ++ of_string ", y=" ++ c2 ++ [])).
    rewrite <- app_assoc. cbn [app].
    rewrite before_comma_app, strip_no_space, Hk.
    + cbn [bind].
      unfold _parse_coords.
      rewrite (named_coord_search (n ++ of_string ", ") c1 c2 [] Hpre H1 H2 I).
      change (group 1 [(2%nat, c2); (1%nat, c1)]) with c1.
      change (group 2 [(2%nat, c2); (1%nat, c1)]) with c2.
      rewrite Hfx. cbn [bind]. rewrite Hx. cbn [bind].
      rewrite Hfy. cbn [bind]. rewrite Hy. reflexivity.
    + apply num_chars_all; [|exact Hn'].
      intros a Ha. destruct (num_char_facts a Ha) as (_ & -> & _). reflexivity.
    + apply num_chars_all; [|exact Hn'].
      intros a Ha. destruct (num_char_facts a Ha) as (_ & _ & _ & ->). reflexivity.
  - unfold named_args. rewrite !forallb_app.
    cbn [of_string list_ascii_of_string forallb].
    rewrite !(num_chars_all not_rparen); try assumption; try reflexivity;
      intros a Ha; apply (num_char_facts a Ha).
Qed.

Lemma scroll_named_call_witness :
  scan_line scan0 (call_line "scroll"
                     (named_args (of_string "3" ++ of_string ", ") "0.25" "0.75" [])
                     [])
  = Ok (Scan (Some (Scroll (Some 480) (Some 810) 3)) None None).
Proof.
  eapply (scroll_named_call scan0 (of_string "3") (of_string "0.25")
                            (of_string "0.75") [] 3).
  - exists [], (of_string "3").
    repeat split; [left; reflexivity|discriminate].
  - right. exists [], (of_string "0"), (of_string "25").
    repeat split; try reflexivity; [left; reflexivity|discriminate].
  - right. exists [], (of_string "0"), (of_string "75").
    repeat split; try reflexivity; [left; reflexivity|discriminate].
  - reflexivity.
  - vm_compute. reflexivity.
  - vm_compute. reflexivity.
  - vm_compute. reflexivity.
  - vm_compute. reflexivity.
Defined.

(** A name is not taken for another one: what follows the literal is
    not the parenthesis. *)
Lemma other_name_refused (k name s s1 : str) :
  forallb not_lparen k = true -> forallb not_lparen name = true -> k <> name ->
  strip_prefix k (name ++ of_string "(" ++ s) = Some s1 ->
  strip_prefix "(" s1 = None.
Proof.
  revert name. induction k as [|a k IH]; intros name Hk Hname Hne H.
  - destruct name as [|b name]; [contradiction Hne; reflexivity|].
    cbn in H. injection H as <-. cbn in Hname.
    apply andb_prop in Hname as [Hb _]. unfold not_lparen in Hb.
    unfold of_string. cbn [list_ascii_of_string strip_prefix].
    rewrite Ascii.eqb_sym. destruct (Ascii.eqb b "("); [discriminate|reflexivity].
  - cbn [forallb] in Hk. apply andb_prop in Hk as [Ha Hk].
    destruct name as [|b name].
    + unfold of_string at 1 in H. cbn [list_ascii_of_string app strip_prefix] in H.
      unfold not_lparen in Ha.
      destruct (Ascii.eqb a "("); [discriminate|discriminate].
    + cbn [forallb] in Hname. apply andb_prop in Hname as [_ Hname].
      cbn [app strip_prefix] in H.
      destruct (Ascii.eqb a b) eqn:E; [|discriminate].
      apply Ascii.eqb_eq in E. subst b.
      apply (IH name Hk Hname); [congruence|exact H].
Qed.

Lemma shape_unknown (name args rest : str) :
  unknown_name name -> shape_of (call_line name args rest) = Other.
Proof.
  intros [Hp Hn]. unfold call_line, shape_of, re_match.
  unfold click_re, scroll_re, anchor_re, dragto_re, write_re, press_re, call.
  cbn [matchk]. rewrite !strip_prefix_app.
  assert (R : forall k s1,
             In k known_names ->
             strip_prefix k (name ++ of_string "(" ++ args ++ of_string ")" ++ rest)
             = Some s1 ->
             strip_prefix "(" s1 = None).
  { intros k s1 Hk. apply other_name_refused; [|exact Hp|].
    - cbn in Hk.
      repeat (destruct Hk as [<-|Hk]; [reflexivity|]). contradiction.
    - intros ->. exact (Hn Hk). }
  repeat match goal with
         | |- context [strip_prefix (of_string ?k) (name ++ ?t)] =>
             destruct (strip_prefix (of_string k) (name ++ t)) as [s1|] eqn:E;
             [rewrite (R (of_string k) s1 ltac:(cbn; tauto) E); clear E s1|clear E];
             cbv beta iota
         end; reflexivity.
Qed.

(** X12: a call of any other name, [pyautogui.hotkey(...)] for one,
    is passed over: the line changes nothing and raises nothing. *)
Theorem unknown_call_ignored :
  forall (st : scan) (name args rest : str),
    unknown_name name -> scan_line st (call_line name args rest) = Ok st.
Proof.
  intros st name args rest H. unfold scan_line.
  rewrite (shape_unknown name args rest H). reflexivity.
Qed.

Lemma unknown_call_ignored_witness :
  scan_line clicked (call_line "hotkey" "'ctrl', 'c'" []) = Ok clicked.
Proof.
  apply (unknown_call_ignored clicked (of_string "hotkey") (of_string "'ctrl', 'c'") []).
  split; [reflexivity|].
  cbn. intros H.
  repeat (destruct H as [H|H]; [discriminate H|]). exact H.
Defined.

(** ** Tasks and directories *)

Lemma process_row_step (task_id : str) (r : row) (s : Step) :
  process_row task_id r = Ok s -> step_of_row task_id r s.
Proof.
  unfold process_row, step_of_row.
  destruct (extract_sections (response r)) as [[th a] c].
  destruct (build_actions c) as [[m k]|] eqn:E; cbn [bind]; [|discriminate].
  intros H. injection H as <-. cbn. rewrite E. auto.
Qed.

Lemma process_rows_steps (task_id : str) (rows : list row) (sts : list Step) :
  process_rows task_id rows = Ok sts -> Forall2 (step_of_row task_id) rows sts.
Proof.
  revert sts. induction rows as [|r rows IH]; intros sts; cbn [process_rows].
  - intros H. injection H as <-. constructor.
  - destruct (process_row task_id r) as [s|] eqn:E; cbn [bind]; [|discriminate].
    destruct (process_rows task_id rows) as [sts'|]; cbn [bind]; [|discriminate].
    intros H. injection H as <-. constructor; [|auto].
    apply process_row_step. exact E.
Qed.

Lemma process_task_id (task_id : str) (cfg : option json) (traj : list row)
      (t : Task) :
  process_task task_id cfg traj = Ok t -> id t = task_id.
Proof.
  unfold process_task. intros H.
  destruct (match cfg with Some c => read_instruction c | None => Ok (JStr []) end);
    cbn [bind] in H; [|discriminate].
  destruct (process_rows task_id traj); cbn [bind] in H; [|discriminate].
  injection H as <-. reflexivity.
Qed.

(** X13: an emitted Task carries the name of its directory and one
    step per record of the step log, in the order of the log; each
    step has the step number of its record, the response trimmed, the
    image path [./static/trajs/ID/FILE], the thought and the code cut
    from the response, and the actions built from that code. *)
Theorem steps_follow_log :
  forall (task_id : str) (cfg : option json) (traj : list row) (t : Task),
    process_task task_id cfg traj = Ok t ->
    id t = task_id
    /\ Forall2 (step_of_row task_id) traj (steps t)
    /\ map stepNum (steps t) = map step_num traj.
Proof.
  intros task_id cfg traj t H.
  pose proof (process_task_steps task_id cfg traj t H) as Hs.
  apply process_rows_steps in Hs. split; [|split; [exact Hs|]].
  - exact (process_task_id task_id cfg traj t H).
  - clear H. induction Hs as [|r s rows sts (E & _) _ IH]; cbn; [reflexivity|].
    rewrite E, IH. reflexivity.
Qed.

Lemma steps_follow_log_witness :
  process_task "task1" None terminate_traj = Ok terminate_task
  /\ id terminate_task = "task1"
  /\ Forall2 (step_of_row "task1") terminate_traj (steps terminate_task)
  /\ map stepNum (steps terminate_task) = map step_num terminate_traj.
Proof.
  assert (E : process_task "task1" None terminate_traj = Ok terminate_task)
    by (vm_compute; reflexivity).
  split; [exact E|].
  exact (steps_follow_log (of_string "task1") None terminate_traj terminate_task E).
Defined.

Lemma collect_tasks_ids (items : list entry) (ts : list Task) :
  collect_tasks items = Ok ts ->
  map id ts = map entry_name (filter has_log items).
Proof.
  revert ts. induction items as [|item rest IH]; intros ts; cbn [collect_tasks].
  - intros H. injection H as <-. reflexivity.
  - cbn [filter]. unfold has_log at 1.
    destruct (is_dir item); cbn [negb andb]; [|apply IH].
    destruct (traj_jsonl item) as [rows|]; [|apply IH].
    destruct (process_task (entry_name item) (config_json item) rows) as [t|] eqn:E;
      cbn [bind]; [|discriminate].
    destruct (collect_tasks rest) as [ts'|]; cbn [bind]; [|discriminate].
    intros H. injection H as <-. cbn [map]. rewrite (IH ts' eq_refl).
    rewrite (process_task_id _ _ _ _ E). reflexivity.
Qed.

(** Every task of the output is [process_task] of one directory. *)
Lemma collect_tasks_each (items : list entry) (ts : list Task) :
  collect_tasks items = Ok ts ->
  Forall2 (fun item t =>
             exists rows, traj_jsonl item = Some rows
                          /\ process_task (entry_name item) (config_json item) rows
                             = Ok t)
          (filter has_log items) ts.
Proof.
  revert ts. induction items as [|item rest IH]; intros ts; cbn [collect_tasks].
  - intros H. injection H as <-. constructor.
  - cbn [filter]. unfold has_log at 1.
    destruct (is_dir item); cbn [negb andb]; [|apply IH].
    destruct (traj_jsonl item) as [rows|] eqn:Et; [|apply IH].
    destruct (process_task (entry_name item) (config_json item) rows) as [t|] eqn:E;
      cbn [bind]; [|discriminate].
    destruct (collect_tasks rest) as [ts'|]; cbn [bind]; [|discriminate].
    intros H. injection H as <-. constructor; [|apply IH; reflexivity].
    exists rows. auto.
Qed.

(** X14: the output of [main] holds one task for each entry of the
    data directory that is a directory with a step log, and for
    nothing else, in the order of the listing; each is what
    [process_task] makes of that directory, under its name. *)
Theorem main_keeps_logged_directories :
  forall (items : list entry) (ts : list Task),
    main items = Ok ts ->
    map id ts = map entry_name (filter has_log items)
    /\ Forall2 (fun item t =>
                  exists rows, traj_jsonl item = Some rows
                               /\ process_task (entry_name item)
                                               (config_json item) rows = Ok t)
               (filter has_log items) ts.
Proof.
  intros items ts H. split.
  - apply collect_tasks_ids. exact H.
  - apply collect_tasks_each. exact H.
Qed.

Lemma main_keeps_logged_directories_witness :
  main sample_root = Ok [terminate_task]
  /\ map id [terminate_task] = map entry_name (filter has_log sample_root)
  /\ Forall2 (fun item t =>
                exists rows, traj_jsonl item = Some rows
                             /\ process_task (entry_name item)
                                             (config_json item) rows = Ok t)
             (filter has_log sample_root) [terminate_task].
Proof.
  assert (E : main sample_root = Ok [terminate_task]) by (vm_compute; reflexivity).
  split; [exact E|].
  exact (main_keeps_logged_directories sample_root [terminate_task] E).
Defined.

Lemma process_rows_raises (task_id : str) (rows : list row) (r : row) (e : exn) :
  In r rows ->
  build_actions (snd (extract_sections (response r))) = Raise e ->
  exists e', process_rows task_id rows = Raise e'.
Proof.
  intros Hin Hr.
  assert (Hrow : process_row task_id r = Raise e).
  { unfold process_row. destruct (extract_sections (response r)) as [[th a] c].
    cbn [snd] in Hr. rewrite Hr. reflexivity. }
  induction rows as [|r0 rows IH]; [contradiction|].
  cbn [process_rows]. destruct Hin as [->|Hin].
  - rewrite Hrow. exists e. reflexivity.
  - destruct (process_row task_id r0) as [s|e0]; cbn [bind].
    + destruct (IH Hin) as (e' & ->). exists e'. reflexivity.
    + exists e0. reflexivity.
Qed.

Lemma collect_tasks_raises (items : list entry) (item : entry) (rows : list row)
      (e : exn) :
  In item items -> is_dir item = true -> traj_jsonl item = Some rows ->
  process_task (entry_name item) (config_json item) rows = Raise e ->
  exists e', collect_tasks items = Raise e'.
Proof.
  intros Hin Hd Ht Hp. induction items as [|it items IH]; [contradiction|].
  cbn [collect_tasks]. destruct Hin as [->|Hin].
  - rewrite Hd, Ht, Hp. exists e. reflexivity.
  - destruct (IH Hin) as (e' & E).
    destruct (is_dir it); cbn [negb]; [|exists e'; exact E].
    destruct (traj_jsonl it) as [rs|]; [|exists e'; exact E].
    destruct (process_task (entry_name it) (config_json it) rs) as [t|e0];
      cbn [bind]; [|exists e0; reflexivity].
    rewrite E. exists e'. reflexivity.
Qed.

(** X15: all or nothing: when the code of one record, in the step
    log of one directory, makes [build_actions] raise, [main] raises
    and no task is written, whatever the other records and the other
    directories hold. *)
Theorem main_all_or_nothing :
  forall (items : list entry) (item : entry) (rows : list row) (r : row)
         (e : exn),
    In item items -> is_dir item = true -> traj_jsonl item = Some rows ->
    In r rows ->
    build_actions (snd (extract_sections (response r))) = Raise e ->
    exists e', main items = Raise e'.
Proof.
  intros items item rows r e Hin Hd Ht Hr He. unfold main.
  destruct (process_rows_raises (entry_name item) rows r e Hr He) as (e1 & E1).
  assert (Hp : exists e2, process_task (entry_name item) (config_json item) rows
                          = Raise e2).
  { unfold process_task.
    destruct (match config_json item with
              | Some c => read_instruction c | None => Ok (JStr []) end) as [v|e0];
      cbn [bind]; [|exists e0; reflexivity].
    rewrite E1. exists e1. reflexivity. }
  destruct Hp as (e2 & Hp).
  exact (collect_tasks_raises items item rows e2 Hin Hd Ht Hp).
Qed.

Lemma main_all_or_nothing_witness :
  exists e', main broken_root = Raise e'.
Proof.
  apply (main_all_or_nothing broken_root
           (Entry "task2" true None (Some broken_traj)) broken_traj
           (Row 2 press_without_key "step_2.png") AttributeError).
  - right. right. right. left. reflexivity.
  - reflexivity.
  - reflexivity.
  - right. left. reflexivity.
  - vm_compute. reflexivity.
Defined.
